(** * HostBot: the identity codec, the key-value store, the trigger client
      and the co-host request queue

    A shallow embedding of [hostbot.py], [hostbot/storage.py] and
    [hostbot/triggercmd.py].  Python values are modelled as follows.

    - a [str] is the list of its code points, each a [Z] in [0, 0x10FFFF];
    - a [bytes] object is the list of its bytes, each a [Z] in [0, 255];
    - a raised exception is a value of [Py.exn]; a call that may raise
      returns a [Py.result];
    - JSON documents (what [json.load] returns and [json.dump] accepts here)
      are values of [Storage.json], with [dict] as [gmap]. *)

From Stdlib Require Import ZArith List Bool Lia String Ascii DecimalString.
From stdpp Require Import base gmap list.
Import ListNotations.
Local Open Scope Z_scope.

#[local] Set Warnings "-register-all".

(** ** Python runtime: exceptions and results *)

Module Py.

(** The exceptions met by the modelled code.  All of them derive from
    [Exception]; [binascii_Error], [UnicodeEncodeError], [UnicodeDecodeError]
    and [JSONDecodeError] derive from [ValueError], [FileNotFoundError] and
    [HTTPError] from [OSError].  [OtherException] stands for any further
    [Exception] subclass a collaborator raises (socket and TLS errors,
    [discord.HTTPException], ...). *)
Inductive exn : Type :=
| ValueError
| binascii_Error
| UnicodeEncodeError
| UnicodeDecodeError
| JSONDecodeError
| FileNotFoundError
| HTTPError (code : Z)
| TypeError
| AttributeError
| OtherException (name : string).

(** The classes named in the [except] clauses of the source. *)
Inductive exn_class : Type :=
| Exception_
| binascii_Error_
| UnicodeDecodeError_
| JSONDecodeError_
| FileNotFoundError_
| HTTPError_.

(** [isinstance e c]: does [except c] catch [e]? *)
Definition isinstance (e : exn) (c : exn_class) : bool :=
  match c, e with
  | Exception_, _ => true
  | binascii_Error_, binascii_Error => true
  | UnicodeDecodeError_, UnicodeDecodeError => true
  | JSONDecodeError_, JSONDecodeError => true
  | FileNotFoundError_, FileNotFoundError => true
  | HTTPError_, HTTPError _ => true
  | _, _ => false
  end.

Inductive result (A : Type) : Type :=
| Return (a : A)
| Raise (e : exn).
Arguments Return {A} a.
Arguments Raise {A} e.

Definition bind {A B} (m : result A) (k : A -> result B) : result B :=
  match m with
  | Return a => k a
  | Raise e => Raise e
  end.

Definition raises {A} (m : result A) : bool :=
  match m with Return _ => false | Raise _ => true end.

(** Code that reads and writes a state of type [S] and may raise: the
    state reached is kept when an exception leaves the code, as the
    mutations of a Python function are. *)
Definition M (S A : Type) : Type := S -> result A * S.

Definition ret {S A} (a : A) : M S A := fun s => (Return a, s).

Definition raise {S A} (e : exn) : M S A := fun s => (Raise e, s).

Definition mbind {S A B} (m : M S A) (k : A -> M S B) : M S B :=
  fun s =>
    match m s with
    | (Return a, s') => k a s'
    | (Raise e, s') => (Raise e, s')
    end.

(** A pure computation, run inside stateful code. *)
Definition lift {S A} (r : result A) : M S A := fun s => (r, s).

(** [try: body except c1: h1 except c2: h2 ...]: the first clause whose
    class the exception is an instance of handles it; with no such clause
    the exception goes on to the caller. *)
Definition try_except {S A} (body : M S A)
    (handlers : list (exn_class * (exn -> M S A))) : M S A :=
  fun s =>
    match body s with
    | (Return a, s') => (Return a, s')
    | (Raise e, s') =>
        match List.find (fun h => isinstance e (fst h)) handlers with
        | Some h => snd h e s'
        | None => (Raise e, s')
        end
    end.

(** A [str]: its code points.  A [bytes]: its bytes. *)
Definition str := list Z.
Definition bytes := list Z.

(** A literal of the source, as a [str]. *)
Definition lit (s : string) : str :=
  map (fun a => Z.of_nat (nat_of_ascii a)) (list_ascii_of_string s).

(** Every code point of a [str] lies in [0, 0x10FFFF]. *)
Definition wf_str (s : str) : Prop := Forall (fun c => 0 <= c < 0x110000) s.

(** Every element of a [bytes] lies in [0, 255]. *)
Definition wf_bytes (b : bytes) : Prop := Forall (fun x => 0 <= x < 256) b.

(** *** Character classes of [str] (Unicode 14.0.0, CPython 3.11) *)

Definition in_ranges (table : list (Z * Z)) (c : Z) : bool :=
  existsb (fun r => (fst r <=? c) && (c <=? snd r)) table.

(** The code points [str.isspace] accepts. *)
Definition whitespace_ranges : list (Z * Z) :=
  [
   (9, 13); (28, 32); (133, 133); (160, 160);
   (5760, 5760); (8192, 8202); (8232, 8233); (8239, 8239);
   (8287, 8287); (12288, 12288)].

(** The code points [str.isdecimal] accepts: runs of the ten digits of a
    script, zero first. *)
Definition decimal_ranges : list (Z * Z) :=
  [
   (48, 57); (1632, 1641); (1776, 1785); (1984, 1993);
   (2406, 2415); (2534, 2543); (2662, 2671); (2790, 2799);
   (2918, 2927); (3046, 3055); (3174, 3183); (3302, 3311);
   (3430, 3439); (3558, 3567); (3664, 3673); (3792, 3801);
   (3872, 3881); (4160, 4169); (4240, 4249); (6112, 6121);
   (6160, 6169); (6470, 6479); (6608, 6617); (6784, 6793);
   (6800, 6809); (6992, 7001); (7088, 7097); (7232, 7241);
   (7248, 7257); (42528, 42537); (43216, 43225); (43264, 43273);
   (43472, 43481); (43504, 43513); (43600, 43609); (44016, 44025);
   (65296, 65305); (66720, 66729); (68912, 68921); (69734, 69743);
   (69872, 69881); (69942, 69951); (70096, 70105); (70384, 70393);
   (70736, 70745); (70864, 70873); (71248, 71257); (71360, 71369);
   (71472, 71481); (71904, 71913); (72016, 72025); (72784, 72793);
   (73040, 73049); (73120, 73129); (92768, 92777); (92864, 92873);
   (93008, 93017); (120782, 120831); (123200, 123209); (123632, 123641);
   (125264, 125273); (130032, 130041)].

(** The further code points [str.isdigit] accepts: superscripts,
    subscripts, circled and other digits that are no decimal digits. *)
Definition other_digit_ranges : list (Z * Z) :=
  [
   (178, 179); (185, 185); (4969, 4977); (6618, 6618);
   (8304, 8304); (8308, 8313); (8320, 8329); (9312, 9320);
   (9332, 9340); (9352, 9360); (9450, 9450); (9461, 9469);
   (9471, 9471); (10102, 10110); (10112, 10120); (10122, 10130);
   (68160, 68163); (69216, 69224); (69714, 69722); (127232, 127242)].

Definition isspace_char (c : Z) : bool := in_ranges whitespace_ranges c.
Definition isdecimal_char (c : Z) : bool := in_ranges decimal_ranges c.
Definition isdigit_char (c : Z) : bool :=
  in_ranges decimal_ranges c || in_ranges other_digit_ranges c.

(** [s.isdigit()]: every character is a digit and there is at least one. *)
Definition isdigit (s : str) : bool :=
  match s with
  | [] => false
  | _ => forallb isdigit_char s
  end.

Fixpoint lstrip (s : str) : str :=
  match s with
  | c :: s' => if isspace_char c then lstrip s' else s
  | [] => []
  end.

Definition rstrip (s : str) : str := rev (lstrip (rev s)).

(** [s.strip()] *)
Definition strip (s : str) : str := rstrip (lstrip s).

(** [len(s)] *)
Definition len (s : str) : Z := Z.of_nat (length s).

(** The value of a decimal digit: its rank in its run of ten. *)
Definition decimal_value (c : Z) : option Z :=
  match List.find (fun r => (fst r <=? c) && (c <=? snd r)) decimal_ranges with
  | Some r => Some ((c - fst r) mod 10)
  | None => None
  end.

Fixpoint int_digits (acc : Z) (s : str) : result Z :=
  match s with
  | [] => Return acc
  | c :: s' =>
      match decimal_value c with
      | Some v => int_digits (10 * acc + v) s'
      | None => Raise ValueError
      end
  end.

(** [int(s)] for a [str] of digits (one that [isdigit] accepts): the
    number it writes in base ten.  A digit that is no decimal digit, and a
    text of more than 4300 digits, raise [ValueError]. *)
Definition int_of_digits (s : str) : result Z :=
  if 4300 <? len s then Raise ValueError else int_digits 0 s.

End Py.

Import Py.

Declare Scope result_scope.
Delimit Scope result_scope with result.
Declare Scope io_scope.
Delimit Scope io_scope with io.

Notation "x <- m ;; k" := (Py.bind m (fun x => k))
  (at level 100, m at next level, right associativity) : result_scope.
Notation "x <- m ;; k" := (Py.mbind m (fun x => k))
  (at level 100, m at next level, right associativity) : io_scope.
Notation "m ;; k" := (Py.mbind m (fun _ => k))
  (at level 100, right associativity) : io_scope.

Local Open Scope result_scope.

(** ** UTF-8, as [str.encode()] and [bytes.decode()] use it

    Both calls run with the default arguments: encoding ["utf-8"], error
    handler ["strict"], so every malformed input raises. *)

Module Utf8.

(** One code point, as CPython's encoder emits it.  A surrogate has no
    UTF-8 form and raises [UnicodeEncodeError]. *)
Definition encode_cp (ch : Z) : result bytes :=
  if ch <? 0x80 then Return [ch]
  else if ch <? 0x800 then
    Return [Z.lor 0xC0 (Z.shiftr ch 6); Z.lor 0x80 (Z.land ch 0x3F)]
  else if (0xD800 <=? ch) && (ch <=? 0xDFFF) then Raise UnicodeEncodeError
  else if ch <? 0x10000 then
    Return [Z.lor 0xE0 (Z.shiftr ch 12);
            Z.lor 0x80 (Z.land (Z.shiftr ch 6) 0x3F);
            Z.lor 0x80 (Z.land ch 0x3F)]
  else
    Return [Z.lor 0xF0 (Z.shiftr ch 18);
            Z.lor 0x80 (Z.land (Z.shiftr ch 12) 0x3F);
            Z.lor 0x80 (Z.land (Z.shiftr ch 6) 0x3F);
            Z.lor 0x80 (Z.land ch 0x3F)].

(** [s.encode()] *)
Fixpoint encode (s : str) : result bytes :=
  match s with
  | [] => Return []
  | ch :: s' =>
      b <- encode_cp ch ;;
      rest <- encode s' ;;
      Return (b ++ rest)
  end.

Definition is_continuation_byte (ch : Z) : bool := (0x80 <=? ch) && (ch <? 0xC0).

(** [b.decode()]: the strict decoder.  It refuses stray continuation bytes,
    overlong forms ([0xC0], [0xC1], [0xE0 0x80..0x9F], [0xF0 0x80..0x8F]),
    surrogates ([0xED 0xA0..0xBF]), code points above [0x10FFFF] and
    truncated sequences. *)
Fixpoint decode (b : bytes) : result str :=
  match b with
  | [] => Return []
  | ch :: s1 =>
      if ch <? 0x80 then
        rest <- decode s1 ;; Return (ch :: rest)
      else if ch <? 0xE0 then
        if ch <? 0xC2 then Raise UnicodeDecodeError
        else
          match s1 with
          | ch2 :: s2 =>
              if negb (is_continuation_byte ch2) then Raise UnicodeDecodeError
              else
                rest <- decode s2 ;;
                Return (Z.shiftl ch 6 + ch2 - (Z.shiftl 0xC0 6 + 0x80) :: rest)
          | _ => Raise UnicodeDecodeError
          end
      else if ch <? 0xF0 then
        match s1 with
        | ch2 :: ch3 :: s3 =>
            if negb (is_continuation_byte ch2) then Raise UnicodeDecodeError
            else if (ch =? 0xE0) && (ch2 <? 0xA0) then Raise UnicodeDecodeError
            else if (ch =? 0xED) && (0xA0 <=? ch2) then Raise UnicodeDecodeError
            else if negb (is_continuation_byte ch3) then Raise UnicodeDecodeError
            else
              rest <- decode s3 ;;
              Return (Z.shiftl ch 12 + Z.shiftl ch2 6 + ch3
                      - (Z.shiftl 0xE0 12 + Z.shiftl 0x80 6 + 0x80) :: rest)
        | _ => Raise UnicodeDecodeError
        end
      else if ch <? 0xF5 then
        match s1 with
        | ch2 :: ch3 :: ch4 :: s4 =>
            if negb (is_continuation_byte ch2) then Raise UnicodeDecodeError
            else if (ch =? 0xF0) && (ch2 <? 0x90) then Raise UnicodeDecodeError
            else if (ch =? 0xF4) && (0x90 <=? ch2) then Raise UnicodeDecodeError
            else if negb (is_continuation_byte ch3) then Raise UnicodeDecodeError
            else if negb (is_continuation_byte ch4) then Raise UnicodeDecodeError
            else
              rest <- decode s4 ;;
              Return (Z.shiftl ch 18 + Z.shiftl ch2 12 + Z.shiftl ch3 6 + ch4
                      - (Z.shiftl 0xF0 18 + Z.shiftl 0x80 12
                         + Z.shiftl 0x80 6 + 0x80) :: rest)
        | _ => Raise UnicodeDecodeError
        end
      else Raise UnicodeDecodeError
  end.

(** A scalar value: a code point that is not a surrogate. *)
Definition scalar (ch : Z) : Prop :=
  0 <= ch < 0x110000 /\ ~ (0xD800 <= ch <= 0xDFFF).

(** Valid text: a [str] that [encode] accepts. *)
Definition valid_text (s : str) : Prop := Forall scalar s.

Definition ascii_only (s : list Z) : Prop := Forall (fun c => 0 <= c < 0x80) s.

End Utf8.

(** ** Base64, as [base64.b64encode] and [base64.b64decode] compute it

    [b64encode(s)] is [binascii.b2a_base64(s, newline=False)]: RFC 4648
    with the standard alphabet and padding.  [b64decode(s)] is called with
    its defaults ([validate=False]): a [str] argument is first encoded as
    ASCII, then [binascii.a2b_base64] scans it leniently. *)

Module Base64.

Definition BASE64_PAD : Z := 61.

Definition table_b2a_base64 : list Z :=
  Eval cbv in
    lit "ABCDEFGHIJKLMNOPQRSTUVWXYZabcdefghijklmnopqrstuvwxyz0123456789+/".

(** The character of a 6-bit value. *)
Definition b2a (v : Z) : Z := nth (Z.to_nat v) table_b2a_base64 0.

(** The 6-bit value of a character; [255] (the table's [-1] in an unsigned
    char) for a character outside the alphabet.  The table maps the pad
    character to [0], but the scan tests for it before the lookup. *)
Definition table_a2b_base64 (c : Z) : Z :=
  if (65 <=? c) && (c <=? 90) then c - 65
  else if (97 <=? c) && (c <=? 122) then c - 71
  else if (48 <=? c) && (c <=? 57) then c + 4
  else if c =? 43 then 62
  else if c =? 47 then 63
  else if c =? BASE64_PAD then 0
  else 255.

(** The characters of the codec: [A-Z], [a-z], [0-9], [+], [/] and the pad
    character [=]. *)
Definition codec_char (c : Z) : bool :=
  ((65 <=? c) && (c <=? 90)) || ((97 <=? c) && (c <=? 122))
  || ((48 <=? c) && (c <=? 57)) || (c =? 43) || (c =? 47)
  || (c =? BASE64_PAD).

(** The check that the two tables agree on a 6-bit value: the lookup
    table inverts the alphabet table there, and the character is ASCII and
    not the pad character. *)
Definition sextet_ok (v : Z) : bool :=
  (table_a2b_base64 (b2a v) =? v) && negb (b2a v =? BASE64_PAD)
  && (0 <=? b2a v) && (b2a v <? 0x80).

(** [binascii.b2a_base64(data, newline=False)] *)
Fixpoint b2a_base64 (data : bytes) : bytes :=
  match data with
  | [] => []
  | [x] =>
      [b2a (Z.shiftr x 2);
       b2a (Z.shiftl (Z.land x 0x03) 4);
       BASE64_PAD; BASE64_PAD]
  | [x; y] =>
      [b2a (Z.shiftr x 2);
       b2a (Z.lor (Z.shiftl (Z.land x 0x03) 4) (Z.shiftr y 4));
       b2a (Z.shiftl (Z.land y 0x0F) 2);
       BASE64_PAD]
  | x :: y :: z :: rest =>
      b2a (Z.shiftr x 2)
      :: b2a (Z.lor (Z.shiftl (Z.land x 0x03) 4) (Z.shiftr y 4))
      :: b2a (Z.lor (Z.shiftl (Z.land y 0x0F) 2) (Z.shiftr z 6))
      :: b2a (Z.land z 0x3F)
      :: b2a_base64 rest
  end.

(** The scan of [binascii.a2b_base64] with [strict_mode=False].
    [quad_pos] counts the alphabet characters of the current group of four,
    [leftchar] holds the bits not yet written, [pads] counts the pad
    characters seen since the last alphabet character (only once two
    characters of the group are in), [bin_data] is the output so far.

    - a pad character that completes the group ends the scan at once: what
      follows is never read;
    - any other pad character and every character outside the alphabet is
      skipped;
    - input that ends inside a group raises [binascii.Error]. *)
Fixpoint a2b_base64_scan (ascii_data : bytes)
    (quad_pos leftchar pads : Z) (bin_data : bytes) : result bytes :=
  match ascii_data with
  | [] =>
      if quad_pos =? 0 then Return bin_data else Raise binascii_Error
  | this_ch :: rest =>
      if this_ch =? BASE64_PAD then
        if 2 <=? quad_pos then
          if 4 <=? quad_pos + (pads + 1) then Return bin_data
          else a2b_base64_scan rest quad_pos leftchar (pads + 1) bin_data
        else a2b_base64_scan rest quad_pos leftchar pads bin_data
      else
        let v := table_a2b_base64 this_ch in
        if 64 <=? v then a2b_base64_scan rest quad_pos leftchar pads bin_data
        else
          match quad_pos with
          | 0 => a2b_base64_scan rest 1 v 0 bin_data
          | 1 =>
              a2b_base64_scan rest 2 (Z.land v 0x0F) 0
                (bin_data ++ [Z.lor (Z.shiftl leftchar 2) (Z.shiftr v 4)])
          | 2 =>
              a2b_base64_scan rest 3 (Z.land v 0x03) 0
                (bin_data ++ [Z.lor (Z.shiftl leftchar 4) (Z.shiftr v 2)])
          | _ =>
              a2b_base64_scan rest 0 0 0
                (bin_data ++ [Z.lor (Z.shiftl leftchar 6) v])
          end
  end.

Definition a2b_base64 (ascii_data : bytes) : result bytes :=
  a2b_base64_scan ascii_data 0 0 0 [].

(** [base64._bytes_from_decode_data] on a [str]: [s.encode('ascii')], a
    failure of which is re-raised as a plain [ValueError]. *)
Definition _bytes_from_decode_data (s : str) : result bytes :=
  if forallb (fun c => c <? 0x80) s then Return s else Raise ValueError.

(** [base64.b64encode(s)] *)
Definition b64encode (s : bytes) : bytes := b2a_base64 s.

(** [base64.b64decode(s)] for a [str] argument *)
Definition b64decode (s : str) : result bytes :=
  data <- _bytes_from_decode_data s ;;
  a2b_base64 data.

End Base64.

(** ** The identity codec

    The two expressions the bot uses to turn a display name into a token
    and back. *)

Module Codec.

(** [base64.b64encode(zoom_name.encode()).decode()]
    ([save_zoom_name_to_file], [AssignCohostModal.on_submit], ...) *)
Definition encode (name : str) : result str :=
  utf8 <- Utf8.encode name ;;
  Utf8.decode (Base64.b64encode utf8).

(** [base64.b64decode(encoded_name).decode()]
    ([queue_worker], [on_message], [ZoomNameModal.on_submit]) *)
Definition decode (token : str) : result str :=
  raw <- Base64.b64decode token ;;
  Utf8.decode raw.

(** The errors the callers of [decode] name: [base64.binascii.Error] and
    [UnicodeDecodeError]. *)
Definition DecodeError (e : exn) : Prop :=
  e = binascii_Error \/ e = UnicodeDecodeError.

(** A token with a character outside the codec. *)
Definition foreign (token : str) : Prop :=
  exists c, In c token /\ Base64.codec_char c = false.

End Codec.

(** ** The key-value store ([hostbot/storage.py]) *)

Module Storage.

Local Open Scope io_scope.

(** What [json.load] returns and [json.dump] accepts: the tree the bot
    keeps in its data file and under its Firebase reference. *)
Inductive json : Type :=
| JNull
| JBool (b : bool)
| JInt (n : Z)
| JStr (s : list Z)
| JList (l : list json)
| JObj (m : gmap (list Z) json).

(** [{}] *)
Definition empty_dict : json := JObj ∅.

(** Truth value of a JSON value, as [if v] and [v or {}] test it. *)
Definition truthy (v : json) : bool :=
  match v with
  | JNull => false
  | JBool b => b
  | JInt n => negb (n =? 0)
  | JStr s => negb (bool_decide (s = []))
  | JList l => match l with [] => false | _ => true end
  | JObj m => negb (bool_decide (m = ∅))
  end.

Definition DATA_USER_PATH : str := Eval cbv in lit "hostbot".

(** The local data file [HOSTBOT_DATA_FILE], seen through [open] and
    [json.load]: absent; text that [json.load] rejects with
    [JSONDecodeError]; or the text of a document, which is what
    [json.dump] writes. *)
Inductive file_state : Type :=
| No_file
| Malformed (text : str)
| Document (doc : json).

(** The records the module hands to [logging.error]. *)
Inductive log_record : Type :=
| Firebase_read_failed (exc : exn)
| Firebase_write_failed (exc : exn)
| Invalid_JSON_data_file.

(** The state the module works on.
    - [fb]: whether [_get_realtime_db()] yields a reference (Firebase is
      installed and configured; the reference is cached for the process);
    - [remote]: the children of that reference, by name;
    - [faults]: for each coming call to Firebase in turn, whether it
      succeeds ([None]) or raises ([Some exc]); calls beyond the list
      succeed;
    - [file]: the local data file;
    - [clock]: what [int(time.time())] returns;
    - [log]: the records logged so far, oldest first. *)
Record state : Type := mkState {
  fb : bool;
  remote : gmap (list Z) json;
  faults : list (option exn);
  file : file_state;
  clock : Z;
  log : list log_record
}.

Definition set_remote (r : gmap (list Z) json) (s : state) : state :=
  mkState (fb s) r (faults s) (file s) (clock s) (log s).
Definition set_faults (f : list (option exn)) (s : state) : state :=
  mkState (fb s) (remote s) f (file s) (clock s) (log s).
Definition set_file (f : file_state) (s : state) : state :=
  mkState (fb s) (remote s) (faults s) f (clock s) (log s).
Definition add_log (r : log_record) (s : state) : state :=
  mkState (fb s) (remote s) (faults s) (file s) (clock s) (log s ++ [r]).

(** [logging.error(...)] *)
Definition logging_error (r : log_record) : M state unit :=
  fun s => (Return tt, add_log r s).

(** [int(time.time())] *)
Definition time_time : M state Z := fun s => (Return (clock s), s).

(** One call to Firebase: it raises when the next fault says so, and acts
    on the remote tree otherwise. *)
Definition firebase_call {A} (op : gmap (list Z) json -> A * gmap (list Z) json)
  : M state A :=
  fun s =>
    match faults s with
    | Some exc :: rest => (Raise exc, set_faults rest s)
    | None :: rest =>
        let (a, r) := op (remote s) in (Return a, set_remote r (set_faults rest s))
    | [] =>
        let (a, r) := op (remote s) in (Return a, set_remote r s)
    end.

(** [ref.child(name).get()]: the value stored there, [None] when none is. *)
Definition child_get (name : str) : M state json :=
  firebase_call (fun r => (default JNull (r !! name), r)).

(** [ref.child(name).set(value)] *)
Definition child_set (name : str) (value : json) : M state unit :=
  firebase_call (fun r => (tt, <[name := value]> r)).

(** [_get_realtime_db()]: the cached reference, or [None]. *)
Definition _get_realtime_db : M state bool := fun s => (Return (fb s), s).

(** [str(n)] for an [int]. *)
Definition str_of_int (n : Z) : str :=
  lit (DecimalString.NilZero.string_of_int (Z.to_int n)).

(** [_user_ref(user_id)]: the name of the child for [user_id], or [None]. *)
Definition _user_ref (user_id : Z) : M state (option str) :=
  fb <- _get_realtime_db ;;
  if negb fb then ret None else ret (Some (str_of_int user_id)).

(** [with open(HOSTBOT_DATA_FILE, "r") as fp: return json.load(fp)] *)
Definition read_file : M state json :=
  fun s =>
    match file s with
    | No_file => (Raise FileNotFoundError, s)
    | Malformed _ => (Raise JSONDecodeError, s)
    | Document doc => (Return doc, s)
    end.

(** [with open(HOSTBOT_DATA_FILE, "w") as fp: json.dump(data, fp)] *)
Definition write_file (data : json) : M state unit :=
  fun s => (Return tt, set_file (Document data) s).

(** [load_data()] *)
Definition load_data : M state json :=
  let local :=
    try_except read_file
      [(FileNotFoundError_, fun _ => ret empty_dict);
       (JSONDecodeError_, fun _ =>
          logging_error Invalid_JSON_data_file ;; ret empty_dict)] in
  fb <- _get_realtime_db ;;
  if fb then
    try_except
      (v <- child_get (lit "data") ;;
       ret (if truthy v then v else empty_dict))
      [(Exception_, fun exc =>
          logging_error (Firebase_read_failed exc) ;; local)]
  else local.

(** [save_data(data)] *)
Definition save_data (data : json) : M state unit :=
  let local := write_file data in
  fb <- _get_realtime_db ;;
  if fb then
    try_except
      (child_set (lit "data") data)
      [(Exception_, fun exc =>
          logging_error (Firebase_write_failed exc) ;; local)]
  else local.

(** [base = store.setdefault(DATA_USER_PATH, {}); base[key] = value], on
    the tree [store]: [base] is the very object held by [store], so the
    assignment shows in [store].  A [store] that is no [dict] has no
    [setdefault]; a [base] that is no [dict] takes no [str] key. *)
Definition setdefault_setitem (store : json) (key : str) (value : json)
  : result json :=
  match store with
  | JObj m =>
      match default empty_dict (m !! DATA_USER_PATH) with
      | JObj base =>
          Return (JObj (<[DATA_USER_PATH := JObj (<[key := value]> base)]> m))
      | _ => Raise TypeError
      end
  | _ => Raise AttributeError
  end.

(** The record [save_zoom_name_to_file] stores for a user. *)
Definition user_record (zoom_name encoded : str) (lastUsed : Z) : json :=
  JObj (<[lit "zoomName" := JStr zoom_name]>
        (<[lit "base64" := JStr encoded]>
         (<[lit "lastUsed" := JInt lastUsed]>
          (<[lit "telegramId" := JStr []]> ∅)))).

(** [save_zoom_name_to_file(user_id, zoom_name)] *)
Definition save_zoom_name_to_file (user_id : Z) (zoom_name : str) : M state str :=
  encoded <- lift (Codec.encode zoom_name) ;;
  now <- time_time ;;
  let data := user_record zoom_name encoded now in
  let local :=
    store <- load_data ;;
    store' <- lift (setdefault_setitem store (str_of_int user_id) data) ;;
    save_data store' ;;
    ret encoded in
  doc <- _user_ref user_id ;;
  match doc with
  | Some name =>
      try_except
        (child_set name data ;; ret encoded)
        [(Exception_, fun exc =>
            logging_error (Firebase_write_failed exc) ;; local)]
  | None => local
  end.

(** [save_room_number(number)] *)
Definition save_room_number (number : str) : M state unit :=
  data <- load_data ;;
  data' <- lift (setdefault_setitem data (lit "room_number") (JStr number)) ;;
  save_data data'.

(** The shape of the tree the module writes: a [dict] whose entry for
    [DATA_USER_PATH], when there is one, is a [dict]. *)
Definition well_shaped (doc : json) : Prop :=
  exists m, doc = JObj m /\
    (m !! DATA_USER_PATH = None \/ exists base, m !! DATA_USER_PATH = Some (JObj base)).

(** The stored trees are of that shape: the document of the local file,
    if it holds one, and the tree under the remote child ["data"], if it
    is one that [load_data] returns as it is. *)
Definition store_ok (s : state) : Prop :=
  (forall doc, file s = Document doc -> well_shaped doc) /\
  (forall v, remote s !! lit "data" = Some v -> truthy v = true -> well_shaped v).

End Storage.

(** ** The trigger client ([hostbot/triggercmd.py]) *)

Module TriggerCmd.

Local Open Scope io_scope.

(** What the endpoint and the network do with one request: no answer
    ([urlopen] raises a transport error), or an answer with a status
    (redirects followed by [urllib]) and what reading its body gives. *)
Inductive reply : Type :=
| Transport (exc : exn)
| Answer (status : Z) (body : result bytes).

(** The JSON body [_call_trigger] posts: [{"computer": "bot", "trigger":
    trigger}] with ["params"] added when given. *)
Record request : Type := mkRequest {
  computer : str;
  trigger : str;
  params : option str;
  authorization : str
}.

(** The records logged: for an [HTTPError], the action, the status and
    the body of the answer ([None] stands for [exc.reason], used when the
    body cannot be read); for any other error, the action and the error. *)
Inductive log_record : Type :=
| TriggerCMD_HTTP (trigger : str) (code : Z) (body : option bytes)
| TriggerCMD_error (trigger : str) (exc : exn).

(** - [TRIGGERCMD_TOKEN]: the configured credential ([""] when unset);
    - [replies]: the answers to the coming requests, in turn; with none
      left the network is down;
    - [sent]: the requests handed to [urlopen], oldest first;
    - [answer]: the answer being read, if any;
    - [log]: the records logged, oldest first. *)
Record state : Type := mkState {
  TRIGGERCMD_TOKEN : str;
  replies : list reply;
  sent : list request;
  answer : option (Z * result bytes);
  log : list log_record
}.

Definition logging_error (r : log_record) : M state unit :=
  fun s =>
    (Return tt,
     mkState (TRIGGERCMD_TOKEN s) (replies s) (sent s) (answer s) (log s ++ [r])).

Definition get_token : M state str := fun s => (Return (TRIGGERCMD_TOKEN s), s).

(** [urllib.request.urlopen(req, context=SSL_CONTEXT)]: the request goes
    out and the next reply comes in.  A status outside [200, 300) raises
    [HTTPError]; the answer stays readable through the exception. *)
Definition urlopen (req : request) : M state unit :=
  fun s =>
    let out r a :=
      mkState (TRIGGERCMD_TOKEN s) r (sent s ++ [req]) a (log s) in
    match replies s with
    | [] => (Raise (OtherException "URLError"), out [] None)
    | Transport exc :: rest => (Raise exc, out rest None)
    | Answer status body :: rest =>
        if (200 <=? status) && (status <? 300)
        then (Return tt, out rest (Some (status, body)))
        else (Raise (HTTPError status), out rest (Some (status, body)))
    end.

(** [response.read()], [exc.read()] *)
Definition read : M state bytes :=
  fun s =>
    match answer s with
    | Some (_, body) => (body, s)
    | None => (Raise (OtherException "ValueError: read of closed file"), s)
    end.

(** [_call_trigger(trigger, params)] *)
Definition _call_trigger (trigger : str) (params : option str) : M state bool :=
  try_except
    (token <- get_token ;;
     (if bool_decide (token = []) then raise ValueError else ret tt) ;;
     urlopen (mkRequest (lit "bot") trigger params (lit "Bearer " ++ token)) ;;
     read ;;
     ret true)
    [(HTTPError_, fun exc =>
        body <- try_except (b <- read ;; ret (Some b))
                  [(Exception_, fun _ => ret None)] ;;
        logging_error
          (TriggerCMD_HTTP trigger
             (match exc with HTTPError code => code | _ => 0 end) body) ;;
        ret false);
     (Exception_, fun exc =>
        logging_error (TriggerCMD_error trigger exc) ;;
        ret false)].

(** [send_trigger_cmd(encoded_name)] *)
Definition send_trigger_cmd (encoded_name : str) : M state bool :=
  _call_trigger (lit "cohost") (Some encoded_name).

(** [send_host_cmd(encoded_name)] *)
Definition send_host_cmd (encoded_name : str) : M state bool :=
  _call_trigger (lit "host") (Some encoded_name).

(** [send_reclaim_cmd()] *)
Definition send_reclaim_cmd : M state bool := _call_trigger (lit "reclaim") None.

(** [send_unmute_cmd()] *)
Definition send_unmute_cmd : M state bool := _call_trigger (lit "unmute") None.

(** [send_next_track_cmd()] *)
Definition send_next_track_cmd : M state bool :=
  _call_trigger (lit "next-track") None.

(** [send_revoke_cmd(encoded_name)] *)
Definition send_revoke_cmd (encoded_name : str) : M state bool :=
  _call_trigger (lit "revoke") (Some encoded_name).

(** A request was answered in full: the status is in [200, 300) and the
    body was read to its end. *)
Definition answered_2xx (r : reply) : Prop :=
  exists status body,
    r = Answer status (Return body) /\ 200 <= status < 300.

End TriggerCmd.

(** ** The bot ([hostbot.py]): the request queue, its worker and the
       handlers that feed it *)

Module HostBot.

Local Open Scope io_scope.

(** [Request]: the dataclass of the queued requests. *)
Record Request : Type := mkRequest { encoded_name : str }.

(** What a handler answers to an interaction
    ([interaction.response.send_message]). *)
Inductive message : Type :=
| You_are_in_line (position : Z)
    (* "Your co-host request has been queued. You are #{position} in line." *)
| Assignment_in_line (zoom_name : str) (position : Z)
    (* "Co-host assignment for {zoom_name} has been queued. You are #{position} in line." *)
| Please_update_your_Zoom_name
| Error_assigning_cohost (exc : exn)
| Room_number_updated (number : str)
| Invalid_room_number
    (* "Invalid room number. Must be 11 digits." *)
| Queue_delay_updated
| Invalid_number.

(** What the bot posts to its log channel ([send_log_embed]). *)
Inductive log_embed : Type :=
| Cohost_assigned (name : str)
    (* "Co-host has been assigned to {name}." *)
| Failed_to_send_cohost_trigger (name : str)
    (* "Failed to send co-host trigger for {name}." *)
| Queued_cohost_trigger (encoded_name : str)
| Invalid_base64_encoded_string
| Decoded_string_is_not_valid_UTF8.

(** What the bot does, in the order it does it.  [Dequeued] and [Slept]
    carry the time of the event loop's clock at which [request_queue.get()]
    returned and at which [asyncio.sleep] was entered. *)
Inductive event : Type :=
| Sent_message (m : message)
| Sent_log_embed (e : log_embed)
| Logged_worker_error (exc : exn)
| Dequeued (request : Request) (time : Z)
| Slept (seconds : Z) (time : Z).

(** Where the task of [queue_worker] stands: at the head of its loop with
    turns left to take, suspended in [request_queue.get()] on an empty
    queue, or ended by an exception that left the loop. *)
Inductive worker_status : Type :=
| Running
| Waiting
| Crashed (exc : exn).

(** The state of the process.
    - [request_queue]: the items of the [asyncio.Queue], next out first;
    - [queue_delay], [room_number]: the module globals;
    - [storage], [triggercmd]: the states of the two modules;
    - [log_channel]: whether [bot.get_channel(DISCORD_BOT_LOG)] finds the
      channel;
    - [discord_faults]: for each coming call to Discord in turn, whether it
      succeeds ([None]) or raises; calls beyond the list succeed;
    - [now]: the clock of the event loop, in seconds;
    - [trace]: the events so far, oldest first;
    - [worker]: the status of the worker task. *)
Record world : Type := mkWorld {
  request_queue : list Request;
  queue_delay : Z;
  room_number : str;
  storage : Storage.state;
  triggercmd : TriggerCmd.state;
  log_channel : bool;
  discord_faults : list (option exn);
  now : Z;
  trace : list event;
  worker : worker_status
}.

Definition set_request_queue (q : list Request) (w : world) : world :=
  mkWorld q (queue_delay w) (room_number w) (storage w) (triggercmd w)
    (log_channel w) (discord_faults w) (now w) (trace w) (worker w).
Definition set_queue_delay (d : Z) (w : world) : world :=
  mkWorld (request_queue w) d (room_number w) (storage w) (triggercmd w)
    (log_channel w) (discord_faults w) (now w) (trace w) (worker w).
Definition set_room_number (r : str) (w : world) : world :=
  mkWorld (request_queue w) (queue_delay w) r (storage w) (triggercmd w)
    (log_channel w) (discord_faults w) (now w) (trace w) (worker w).
Definition set_storage (s : Storage.state) (w : world) : world :=
  mkWorld (request_queue w) (queue_delay w) (room_number w) s (triggercmd w)
    (log_channel w) (discord_faults w) (now w) (trace w) (worker w).
Definition set_triggercmd (t : TriggerCmd.state) (w : world) : world :=
  mkWorld (request_queue w) (queue_delay w) (room_number w) (storage w) t
    (log_channel w) (discord_faults w) (now w) (trace w) (worker w).
Definition set_discord_faults (f : list (option exn)) (w : world) : world :=
  mkWorld (request_queue w) (queue_delay w) (room_number w) (storage w)
    (triggercmd w) (log_channel w) f (now w) (trace w) (worker w).
Definition set_now (t : Z) (w : world) : world :=
  mkWorld (request_queue w) (queue_delay w) (room_number w) (storage w)
    (triggercmd w) (log_channel w) (discord_faults w) t (trace w) (worker w).
Definition add_event (e : event) (w : world) : world :=
  mkWorld (request_queue w) (queue_delay w) (room_number w) (storage w)
    (triggercmd w) (log_channel w) (discord_faults w) (now w) (trace w ++ [e])
    (worker w).
Definition set_worker (st : worker_status) (w : world) : world :=
  mkWorld (request_queue w) (queue_delay w) (room_number w) (storage w)
    (triggercmd w) (log_channel w) (discord_faults w) (now w) (trace w) st.

(** Calls into the two modules. *)
Definition in_storage {A} (m : M Storage.state A) : M world A :=
  fun w => let (r, s) := m (storage w) in (r, set_storage s w).
Definition in_triggercmd {A} (m : M TriggerCmd.state A) : M world A :=
  fun w => let (r, t) := m (triggercmd w) in (r, set_triggercmd t w).

(** One call to Discord that posts something: it raises when the next
    fault says so, and the post is made otherwise. *)
Definition discord_post (e : event) : M world unit :=
  fun w =>
    match discord_faults w with
    | Some exc :: rest => (Raise exc, set_discord_faults rest w)
    | None :: rest => (Return tt, add_event e (set_discord_faults rest w))
    | [] => (Return tt, add_event e w)
    end.

(** [await interaction.response.send_message(...)] *)
Definition send_message (m : message) : M world unit :=
  discord_post (Sent_message m).

(** [await send_log_embed(bot, description)]: nothing is sent when the log
    channel is not found. *)
Definition send_log_embed (e : log_embed) : M world unit :=
  fun w =>
    if log_channel w then discord_post (Sent_log_embed e) w
    else (Return tt, w).

(** [logging.error("Queue worker error: %s", exc)] *)
Definition logging_error (exc : exn) : M world unit :=
  fun w => (Return tt, add_event (Logged_worker_error exc) w).

(** [await request_queue.put(request)]: the queue is unbounded, so [put]
    appends at once. *)
Definition put (request : Request) : M world unit :=
  fun w => (Return tt, set_request_queue (request_queue w ++ [request]) w).

(** [request_queue.qsize()] *)
Definition qsize : M world Z :=
  fun w => (Return (Z.of_nat (length (request_queue w))), w).

(** [await asyncio.sleep(seconds)]: the clock has moved by [seconds] (by
    nothing for a negative delay) when the call returns. *)
Definition asyncio_sleep (seconds : Z) : M world unit :=
  fun w =>
    (Return tt,
     set_now (now w + Z.max 0 seconds) (add_event (Slept seconds (now w)) w)).

Definition get_queue_delay : M world Z := fun w => (Return (queue_delay w), w).

(** *** The worker *)

(** The [try] statement of [queue_worker], for the request taken. *)
Definition process (request : Request) : M world unit :=
  try_except
    (success <- in_triggercmd
                  (TriggerCmd.send_trigger_cmd (encoded_name request)) ;;
     name <- lift (Codec.decode (encoded_name request)) ;;
     if success : bool
     then send_log_embed (Cohost_assigned name)
     else send_log_embed (Failed_to_send_cohost_trigger name))
    [(Exception_, fun exc => logging_error exc)].

(** One turn of the [while True] loop of [queue_worker]: on an empty queue
    the task stays suspended in [get()]; otherwise it takes the head of
    the queue, runs the [try] statement, then sleeps [queue_delay].  The
    other coroutines run only while the task is suspended; what they do
    then shows as their own steps before or after the turn. *)
Definition queue_worker_turn (w : world) : worker_status * world :=
  match request_queue w with
  | [] => (Waiting, w)
  | request :: rest =>
      let w1 := add_event (Dequeued request (now w)) (set_request_queue rest w) in
      match (process request ;;
             delay <- get_queue_delay ;;
             asyncio_sleep delay) w1 with
      | (Return _, w2) => (Running, w2)
      | (Raise exc, w2) => (Crashed exc, w2)
      end
  end.

(** [queue_worker(bot)], for a number of turns of its loop. *)
Fixpoint queue_worker (turns : nat) (w : world) : worker_status * world :=
  match turns with
  | O => (Running, w)
  | S n =>
      match queue_worker_turn w with
      | (Running, w') => queue_worker n w'
      | stopped => stopped
      end
  end.

(** *** The handlers *)

(** [HostCommandView.self_assign_cohost], given what
    [get_zoom_name_from_file(interaction.user.id)] does: raise, or return
    the stored token or [None]. *)
Definition self_assign_cohost (stored : result (option str)) : M world unit :=
  try_except
    (encoded_name <- lift stored ;;
     match encoded_name with
     | Some (c :: name) =>
         put (mkRequest (c :: name)) ;;
         position <- qsize ;;
         send_message (You_are_in_line position)
     | _ => send_message Please_update_your_Zoom_name
     end)
    [(Exception_, fun exc => send_message (Error_assigning_cohost exc))].

(** [AssignCohostModal.on_submit], for the text entered. *)
Definition AssignCohostModal_on_submit (zoom_name : str) : M world unit :=
  try_except
    (encoded_name <- lift (Codec.encode zoom_name) ;;
     put (mkRequest encoded_name) ;;
     position <- qsize ;;
     send_message (Assignment_in_line zoom_name position))
    [(Exception_, fun exc => send_message (Error_assigning_cohost exc))].

(** [on_message(message)], up to the call of [bot.process_commands]:
    [own] says that the bot wrote the message, [in_channel] that it came
    in on [DISCORD_CHANNEL_ID]. *)
Definition on_message (own in_channel : bool) (content : str) : M world unit :=
  if own then ret tt
  else if in_channel then
    try_except
      (let encoded_name := strip content in
       name <- lift (Codec.decode encoded_name) ;;
       put (mkRequest encoded_name) ;;
       send_log_embed (Queued_cohost_trigger encoded_name))
      [(binascii_Error_, fun _ => send_log_embed Invalid_base64_encoded_string);
       (UnicodeDecodeError_, fun _ =>
          send_log_embed Decoded_string_is_not_valid_UTF8)]
  else ret tt.

(** [UpdateRoomNumberModal.on_submit], for the text entered. *)
Definition UpdateRoomNumberModal_on_submit (number : str) : M world unit :=
  let value := strip number in
  if isdigit value && (len value =? 11) then
    (fun w => (Return tt, set_room_number value w)) ;;
    in_storage (Storage.save_room_number value) ;;
    send_message (Room_number_updated value)
  else
    send_message Invalid_room_number.

(** [SetQueueDelayModal.on_submit], for the text entered. *)
Definition SetQueueDelayModal_on_submit (seconds : str) : M world unit :=
  if isdigit seconds then
    delay <- lift (int_of_digits seconds) ;;
    (fun w => (Return tt, set_queue_delay delay w)) ;;
    send_message Queue_delay_updated
  else
    send_message Invalid_number.

(** An ASCII digit, [0] to [9]. *)
Definition ascii_digit (c : Z) : Prop := 48 <= c <= 57.

(** The room number the claim describes: exactly eleven ASCII digits. *)
Definition eleven_ascii_digits (value : str) : Prop :=
  length value = 11%nat /\ Forall ascii_digit value.

(** *** The process *)

(** [start_bot()], with the module globals at their initial values:
    [request_queue = asyncio.Queue()], [queue_delay = 10],
    [room_number = load_room_number() or ""]. *)
Definition start_bot (room : str) (s : Storage.state) (t : TriggerCmd.state)
    (channel : bool) (faults : list (option exn)) : world :=
  mkWorld [] 10 room s t channel faults 0 [] Running.

(** What happens next in the process: a handler runs for an interaction or
    a message, the worker takes a turn, or time passes. *)
Inductive action : Type :=
| Self_assign_cohost (stored : result (option str))
| Assign_cohost (zoom_name : str)
| Message (own in_channel : bool) (content : str)
| Update_room_number (number : str)
| Set_queue_delay (seconds : str)
| Worker_turn
| Tick (seconds : N).

(** An exception that leaves a handler is taken by the dispatcher of
    [discord.py]; the state the handler reached stays.  An exception that
    leaves the worker ends its task. *)
Definition step (a : action) (w : world) : world :=
  match a with
  | Self_assign_cohost stored => snd (self_assign_cohost stored w)
  | Assign_cohost zoom_name => snd (AssignCohostModal_on_submit zoom_name w)
  | Message own in_channel content => snd (on_message own in_channel content w)
  | Update_room_number number => snd (UpdateRoomNumberModal_on_submit number w)
  | Set_queue_delay seconds => snd (SetQueueDelayModal_on_submit seconds w)
  | Worker_turn =>
      match worker w with
      | Crashed _ => w
      | _ => let (st, w') := queue_worker_turn w in set_worker st w'
      end
  | Tick seconds => set_now (now w + Z.of_N seconds) w
  end.

Definition run (actions : list action) (w : world) : world :=
  fold_left (fun w a => step a w) actions w.

(** A world for the examples: the bot just started, with a credential, an
    endpoint that answers 500 and then 200, a log channel, and [queue] as
    the requests waiting. *)
Definition example_world (queue : list Request) : world :=
  set_request_queue queue
    (start_bot []
       (Storage.mkState false ∅ [] (Storage.Document Storage.empty_dict) 0 [])
       (TriggerCmd.mkState (lit "secret")
          [TriggerCmd.Answer 500 (Return []); TriggerCmd.Answer 200 (Return [])]
          [] None [])
       true []).

(** *** Reading a trace *)

(** The positions the handlers reported, in order. *)
Definition positions (tr : list event) : list Z :=
  flat_map (fun e =>
              match e with
              | Sent_message (You_are_in_line p) => [p]
              | Sent_message (Assignment_in_line _ p) => [p]
              | _ => []
              end) tr.

(** The requests the worker took, in order. *)
Definition dequeued (tr : list event) : list Request :=
  flat_map (fun e => match e with Dequeued r _ => [r] | _ => [] end) tr.

(** An event of the [try] statement: neither a [get()] nor a sleep. *)
Definition processing_event (e : event) : Prop :=
  match e with
  | Dequeued _ _ | Slept _ _ => False
  | _ => True
  end.

(** What the [try] statement of the worker and the handlers (but the one
    that sets the delay) leave alone: [w'] adds events to the trace of
    [w], none of them a [get()] or a sleep, and has the clock, the delay
    and the worker's status of [w]. *)
Definition calm (w w' : world) : Prop :=
  (exists evs, trace w' = trace w ++ evs /\ Forall processing_event evs) /\
  now w' = now w /\
  queue_delay w' = queue_delay w /\
  worker w' = worker w.

(** What the [try] statement leaves alone besides: the queue. *)
Definition quiet (w w' : world) : Prop :=
  calm w w' /\ request_queue w' = request_queue w.

(** Code that is calm from every world. *)
Definition calmly {A} (m : M world A) : Prop :=
  forall w, exists r w', m w = (r, w') /\ calm w w'.



End HostBot.

(** * Properties *)

(** ** Shifts, masks and ors as arithmetic *)

Section BitArith.

Lemma shiftr_div (a n : Z) : 0 <= n -> Z.shiftr a n = a / 2 ^ n.
Proof. intros; now apply Z.shiftr_div_pow2. Qed.

Lemma shiftl_mul (a n : Z) : 0 <= n -> Z.shiftl a n = a * 2 ^ n.
Proof. intros; now apply Z.shiftl_mul_pow2. Qed.

Lemma land_mask (a n : Z) : 0 <= n -> Z.land a (2 ^ n - 1) = a mod 2 ^ n.
Proof.
  intros Hn. rewrite <- Z.land_ones by assumption.
  f_equal. rewrite Z.ones_equiv. lia.
Qed.

Lemma land_high_low (h l n : Z) :
  0 <= n -> 0 <= l < 2 ^ n -> Z.land (h * 2 ^ n) l = 0.
Proof.
  intros Hn Hl. apply Z.bits_inj'. intros i Hi.
  rewrite Z.land_spec, Z.bits_0.
  destruct (Z.lt_ge_cases i n) as [Hlt | Hge].
  - rewrite Z.mul_pow2_bits_low by lia. reflexivity.
  - rewrite <- (Z.mod_small l (2 ^ n)) by lia.
    rewrite Z.mod_pow2_bits_high by lia. apply andb_false_r.
Qed.

Lemma lor_high_low (h l n : Z) :
  0 <= n -> 0 <= l < 2 ^ n -> Z.lor (h * 2 ^ n) l = h * 2 ^ n + l.
Proof.
  intros Hn Hl.
  pose proof (land_high_low h l n Hn Hl) as Hz.
  rewrite <- Z.lxor_lor by exact Hz.
  symmetry. apply Z.add_nocarry_lxor. exact Hz.
Qed.

End BitArith.

Ltac Zify.zify_post_hook ::= Z.div_mod_to_equations.


Lemma land_0x3F (x : Z) : Z.land x 0x3F = x mod 64.
Proof. change 0x3F with (2 ^ 6 - 1). now rewrite land_mask. Qed.

Lemma land_0x0F (x : Z) : Z.land x 0x0F = x mod 16.
Proof. change 0x0F with (2 ^ 4 - 1). now rewrite land_mask. Qed.

Lemma land_0x03 (x : Z) : Z.land x 0x03 = x mod 4.
Proof. change 0x03 with (2 ^ 2 - 1). now rewrite land_mask. Qed.

Lemma lor_0x80 (x : Z) : 0 <= x < 64 -> Z.lor 0x80 x = 128 + x.
Proof. intros H. change 0x80 with (2 * 2 ^ 6). rewrite lor_high_low; lia. Qed.

Lemma lor_0xC0 (x : Z) : 0 <= x < 64 -> Z.lor 0xC0 x = 192 + x.
Proof. intros H. change 0xC0 with (3 * 2 ^ 6). rewrite lor_high_low; lia. Qed.

Lemma lor_0xE0 (x : Z) : 0 <= x < 16 -> Z.lor 0xE0 x = 224 + x.
Proof. intros H. change 0xE0 with (14 * 2 ^ 4). rewrite lor_high_low; lia. Qed.

Lemma lor_0xF0 (x : Z) : 0 <= x < 8 -> Z.lor 0xF0 x = 240 + x.
Proof. intros H. change 0xF0 with (30 * 2 ^ 3). rewrite lor_high_low; lia. Qed.

(** Decide a boolean comparison on [Z] from the context. *)
Ltac zbool :=
  repeat match goal with
  | |- context [?a <? ?b] =>
      first [ rewrite (proj2 (Z.ltb_lt a b)) by lia
            | rewrite (proj2 (Z.ltb_ge a b)) by lia ]
  | |- context [?a <=? ?b] =>
      first [ rewrite (proj2 (Z.leb_le a b)) by lia
            | rewrite (proj2 (Z.leb_gt a b)) by lia ]
  | |- context [?a =? ?b] =>
      first [ rewrite (proj2 (Z.eqb_eq a b)) by lia
            | rewrite (proj2 (Z.eqb_neq a b)) by lia ]
  end.

(** ** The UTF-8 codec *)

Module Utf8Facts.
Import Utf8.

(** The bytes of a code point, in arithmetic form. *)
Lemma encode_cp_arith (ch : Z) :
  scalar ch ->
  encode_cp ch =
    Return (if ch <? 0x80 then [ch]
            else if ch <? 0x800 then [192 + ch / 64; 128 + ch mod 64]
            else if ch <? 0x10000 then
              [224 + ch / 4096; 128 + (ch / 64) mod 64; 128 + ch mod 64]
            else [240 + ch / 262144; 128 + (ch / 4096) mod 64;
                  128 + (ch / 64) mod 64; 128 + ch mod 64]).
Proof.
  intros [Hr Hs]. unfold encode_cp.
  rewrite !land_0x3F, !shiftr_div by lia.
  change (2 ^ 6) with 64; change (2 ^ 12) with 4096; change (2 ^ 18) with 262144.
  destruct (Z.ltb_spec ch 0x80); [reflexivity|].
  destruct (Z.ltb_spec ch 0x800).
  - rewrite lor_0xC0, lor_0x80 by lia. reflexivity.
  - destruct (Z.leb_spec 0xD800 ch); destruct (Z.leb_spec ch 0xDFFF);
      simpl; try lia;
      (destruct (Z.ltb_spec ch 0x10000);
       [ rewrite lor_0xE0, !lor_0x80 by lia; reflexivity
       | rewrite lor_0xF0, !lor_0x80 by lia; reflexivity ]).
Qed.

Lemma encode_cp_decode (ch : Z) (rest : bytes) :
  scalar ch ->
  exists b, encode_cp ch = Return b /\ wf_bytes b /\
            decode (b ++ rest) = (r <- decode rest ;; Return (ch :: r)).
Proof.
  intros Hsc. rewrite (encode_cp_arith ch Hsc). destruct Hsc as [Hr Hs].
  eexists; split; [reflexivity|].
  destruct (Z.ltb_spec ch 0x80); [|destruct (Z.ltb_spec ch 0x800);
    [|destruct (Z.ltb_spec ch 0x10000)]].
  - split; [repeat constructor; lia|].
    simpl. zbool. reflexivity.
  - split; [repeat constructor; lia|].
    cbn [app decode]. unfold is_continuation_byte. rewrite !shiftl_mul by lia.
    zbool. cbn [negb andb].
    destruct (decode rest); cbn [bind]; [|reflexivity]. do 2 f_equal. lia.
  - split; [repeat constructor; lia|].
    cbn [app decode]. unfold is_continuation_byte. rewrite !shiftl_mul by lia.
    zbool. cbn [negb andb].
    destruct (Z.eqb_spec (224 + ch / 4096) 0xE0);
      destruct (Z.eqb_spec (224 + ch / 4096) 0xED); try lia;
      zbool; cbn [negb andb];
      (destruct (decode rest); cbn [bind]; [|reflexivity]; do 2 f_equal; lia).
  - split; [repeat constructor; lia|].
    cbn [app decode]. unfold is_continuation_byte. rewrite !shiftl_mul by lia.
    zbool. cbn [negb andb].
    destruct (Z.eqb_spec (240 + ch / 262144) 0xF0);
      destruct (Z.eqb_spec (240 + ch / 262144) 0xF4); try lia;
      zbool; cbn [negb andb];
      (destruct (decode rest); cbn [bind]; [|reflexivity]; do 2 f_equal; lia).
Qed.

End Utf8Facts.

Module Utf8Roundtrip.
Import Utf8 Utf8Facts.

Lemma bind_return {A B} (m : result A) (a : A) (k : A -> result B) :
  m = Return a -> (x <- m ;; k x) = k a.
Proof. intros ->. reflexivity. Qed.

Lemma wf_bytes_app (a b : bytes) : wf_bytes a -> wf_bytes b -> wf_bytes (a ++ b).
Proof. unfold wf_bytes. intros. apply Forall_app; auto. Qed.

(** [encode] accepts valid text, yields bytes, and [decode] reads them back. *)
Lemma encode_decode (s : str) :
  valid_text s ->
  exists b, encode s = Return b /\ wf_bytes b /\ decode b = Return s.
Proof.
  induction 1 as [|ch s Hch Hs IH].
  - exists []. repeat split. constructor.
  - destruct IH as (b' & Henc & Hwf & Hdec).
    destruct (encode_cp_decode ch b' Hch) as (b & Hcp & Hwfb & Hd).
    exists (b ++ b'). cbn [encode]. rewrite Hcp, Henc. cbn [bind].
    repeat split.
    + now apply wf_bytes_app.
    + rewrite Hd, Hdec. reflexivity.
Qed.

(** ASCII bytes decode to themselves. *)
Lemma decode_ascii (b : bytes) : ascii_only b -> decode b = Return b.
Proof.
  induction 1 as [|c b Hc Hb IH]; [reflexivity|].
  cbn [decode]. zbool. rewrite IH. reflexivity.
Qed.

End Utf8Roundtrip.

(** ** Base64 on known vectors (RFC 4648, section 10, and CPython 3.11) *)

Module Base64Vectors.
Import Base64.

Example b64encode_foobar :
  map b64encode [lit ""; lit "f"; lit "fo"; lit "foo"; lit "foob";
                 lit "fooba"; lit "foobar"]
  = [lit ""; lit "Zg=="; lit "Zm8="; lit "Zm9v"; lit "Zm9vYg==";
     lit "Zm9vYmE="; lit "Zm9vYmFy"].
Proof. reflexivity. Qed.

Example b64decode_lenient :
  map b64decode [lit "!aGk="; lit "aG k="; lit "aGk=aGk="; lit "=aGk=";
                 lit "aG=k="; lit "aG==k==="; lit "ab=!="; lit "====";
                 lit "YQ=a="; lit "/w=="]
  = map Return [lit "hi"; lit "hi"; lit "hi"; lit "hi";
                lit "hi"; lit "h"; lit "i"; lit "";
                [97; 6]; [255]].
Proof. reflexivity. Qed.

Example b64decode_errors :
  map b64decode [lit "aGk"; lit "a"; lit "aG=k"; lit "YQ"; lit "YQ="; lit "YQ=a";
                 [233]]
  = [Raise binascii_Error; Raise binascii_Error; Raise binascii_Error;
     Raise binascii_Error; Raise binascii_Error; Raise binascii_Error;
     Raise ValueError].
Proof. reflexivity. Qed.

End Base64Vectors.

(** ** Base64: decoding what was encoded *)

Module Base64Facts.
Import Base64.

Lemma lor_shiftl (a b n : Z) :
  0 <= n -> 0 <= b < 2 ^ n -> Z.lor (Z.shiftl a n) b = a * 2 ^ n + b.
Proof. intros. rewrite shiftl_mul by assumption. now apply lor_high_low. Qed.

(** The alphabet table is inverted by the lookup table, holds no pad
    character and only ASCII. *)
Lemma sextets_ok : forallb sextet_ok (map Z.of_nat (seq 0 64)) = true.
Proof. vm_compute. reflexivity. Qed.

Lemma sextet (v : Z) :
  0 <= v < 64 ->
  table_a2b_base64 (b2a v) = v /\ b2a v <> BASE64_PAD /\ 0 <= b2a v < 0x80.
Proof.
  intros Hv.
  assert (Hin : In v (map Z.of_nat (seq 0 64))).
  { apply in_map_iff. exists (Z.to_nat v). split; [lia|].
    apply in_seq. lia. }
  pose proof (proj1 (forallb_forall _ _) sextets_ok v Hin) as H.
  unfold sextet_ok in H.
  apply andb_prop in H as [H H4]. apply andb_prop in H as [H H3].
  apply andb_prop in H as [H1 H2].
  apply Z.eqb_eq in H1. apply negb_true_iff, Z.eqb_neq in H2.
  apply Z.leb_le in H3. apply Z.ltb_lt in H4. auto.
Qed.

Lemma sextet_ascii (v : Z) : 0 <= v < 64 -> 0 <= b2a v < 0x80.
Proof. intros Hv. now destruct (sextet v Hv) as (_ & _ & H). Qed.

(** One alphabet character moves the scan on by one position. *)
Lemma scan_sextet (v : Z) (rest : bytes) (quad_pos leftchar pads : Z)
    (bin_data : bytes) :
  0 <= v < 64 ->
  a2b_base64_scan (b2a v :: rest) quad_pos leftchar pads bin_data =
    match quad_pos with
    | 0 => a2b_base64_scan rest 1 v 0 bin_data
    | 1 =>
        a2b_base64_scan rest 2 (Z.land v 0x0F) 0
          (bin_data ++ [Z.lor (Z.shiftl leftchar 2) (Z.shiftr v 4)])
    | 2 =>
        a2b_base64_scan rest 3 (Z.land v 0x03) 0
          (bin_data ++ [Z.lor (Z.shiftl leftchar 4) (Z.shiftr v 2)])
    | _ =>
        a2b_base64_scan rest 0 0 0
          (bin_data ++ [Z.lor (Z.shiftl leftchar 6) v])
    end.
Proof.
  intros Hv. destruct (sextet v Hv) as (Hinv & Hpad & _).
  cbn [a2b_base64_scan].
  rewrite (proj2 (Z.eqb_neq _ _) Hpad). cbv zeta. rewrite Hinv.
  rewrite (proj2 (Z.leb_gt 64 v)) by lia. reflexivity.
Qed.

Lemma list_ind3 {A} (P : list A -> Prop) :
  P [] -> (forall x, P [x]) -> (forall x y, P [x; y]) ->
  (forall x y z l, P l -> P (x :: y :: z :: l)) ->
  forall l, P l.
Proof.
  intros H0 H1 H2 H3 l.
  assert (H : P l /\ (forall x, P (x :: l)) /\ (forall x y, P (x :: y :: l))).
  { induction l as [|a l (IH0 & IH1 & IH2)]; repeat split; auto. }
  apply H.
Qed.

Lemma scan_pad (rest : bytes) (quad_pos leftchar pads : Z) (bin_data : bytes) :
  a2b_base64_scan (BASE64_PAD :: rest) quad_pos leftchar pads bin_data =
    if 2 <=? quad_pos then
      if 4 <=? quad_pos + (pads + 1) then Return bin_data
      else a2b_base64_scan rest quad_pos leftchar (pads + 1) bin_data
    else a2b_base64_scan rest quad_pos leftchar pads bin_data.
Proof. cbn [a2b_base64_scan]. rewrite Z.eqb_refl. reflexivity. Qed.

(** Shifts and masks to [*], [/] and [mod]; then each [Z.lor] of disjoint
    parts to a sum. *)
Ltac bits_to_arith :=
  rewrite ?land_0x3F, ?land_0x0F, ?land_0x03;
  rewrite ?shiftr_div, ?shiftl_mul by lia;
  repeat match goal with
         | |- context [Z.lor (?h * 2 ^ ?n) ?l] =>
             rewrite (lor_high_low h l n) by lia
         end;
  change (2 ^ 2) with 4 in *; change (2 ^ 4) with 16 in *;
  change (2 ^ 6) with 64 in *.

(** The sextets of a group are 6-bit values. *)
Lemma sextet_ranges (x y z : Z) :
  0 <= x < 256 -> 0 <= y < 256 -> 0 <= z < 256 ->
  0 <= Z.shiftr x 2 < 64 /\
  0 <= Z.shiftl (Z.land x 0x03) 4 < 64 /\
  0 <= Z.lor (Z.shiftl (Z.land x 0x03) 4) (Z.shiftr y 4) < 64 /\
  0 <= Z.shiftl (Z.land y 0x0F) 2 < 64 /\
  0 <= Z.lor (Z.shiftl (Z.land y 0x0F) 2) (Z.shiftr z 6) < 64 /\
  0 <= Z.land z 0x3F < 64.
Proof. intros Hx Hy Hz. bits_to_arith. lia. Qed.

(** The bytes the scan writes for a group are the bytes encoded. *)
Lemma group_bytes (x y z : Z) :
  0 <= x < 256 -> 0 <= y < 256 -> 0 <= z < 256 ->
  let v1 := Z.shiftr x 2 in
  let v2 := Z.lor (Z.shiftl (Z.land x 0x03) 4) (Z.shiftr y 4) in
  let v3 := Z.lor (Z.shiftl (Z.land y 0x0F) 2) (Z.shiftr z 6) in
  let v4 := Z.land z 0x3F in
  Z.lor (Z.shiftl v1 2) (Z.shiftr v2 4) = x /\
  Z.lor (Z.shiftl (Z.land v2 0x0F) 4) (Z.shiftr v3 2) = y /\
  Z.lor (Z.shiftl (Z.land v3 0x03) 6) v4 = z.
Proof. intros Hx Hy Hz. cbv zeta. bits_to_arith. lia. Qed.

Lemma tail1_bytes (x : Z) :
  0 <= x < 256 ->
  Z.lor (Z.shiftl (Z.shiftr x 2) 2) (Z.shiftr (Z.shiftl (Z.land x 0x03) 4) 4) = x.
Proof. intros Hx. bits_to_arith. lia. Qed.

Lemma tail2_bytes (x y : Z) :
  0 <= x < 256 -> 0 <= y < 256 ->
  let v2 := Z.lor (Z.shiftl (Z.land x 0x03) 4) (Z.shiftr y 4) in
  Z.lor (Z.shiftl (Z.shiftr x 2) 2) (Z.shiftr v2 4) = x /\
  Z.lor (Z.shiftl (Z.land v2 0x0F) 4) (Z.shiftr (Z.shiftl (Z.land y 0x0F) 2) 2) = y.
Proof. intros Hx Hy. cbv zeta. bits_to_arith. lia. Qed.

(** The scan rebuilds the bytes that were encoded, from any position
    between two groups. *)
Lemma scan_b2a_base64 (data : bytes) :
  wf_bytes data ->
  forall leftchar pads bin_data,
    a2b_base64_scan (b2a_base64 data) 0 leftchar pads bin_data
    = Return (bin_data ++ data).
Proof.
  induction data as [|x|x y|x y z rest IH] using list_ind3; intros Hwf lc p out.
  - cbn. now rewrite app_nil_r.
  - apply Forall_cons_1 in Hwf as [Hx _].
    destruct (sextet_ranges x 0 0 Hx) as (R1 & R2 & _); [lia | lia |].
    cbn [b2a_base64].
    rewrite (scan_sextet _ _ _ _ _ _ R1). cbv iota.
    rewrite (scan_sextet _ _ _ _ _ _ R2). cbv iota.
    rewrite !scan_pad. cbn [Z.leb Z.add Z.compare Pos.compare Pos.compare_cont
                             Pos.add Pos.succ].
    rewrite tail1_bytes by assumption. reflexivity.
  - apply Forall_cons_1 in Hwf as [Hx Hwf].
    apply Forall_cons_1 in Hwf as [Hy _].
    destruct (sextet_ranges x y 0 Hx Hy) as (R1 & _ & R2 & R3 & _); [lia|].
    destruct (tail2_bytes x y Hx Hy) as [B1 B2].
    cbn [b2a_base64].
    rewrite (scan_sextet _ _ _ _ _ _ R1). cbv iota.
    rewrite (scan_sextet _ _ _ _ _ _ R2). cbv iota.
    rewrite (scan_sextet _ _ _ _ _ _ R3). cbv iota.
    rewrite scan_pad. cbn [Z.leb Z.add Z.compare Pos.compare Pos.compare_cont
                            Pos.add Pos.succ].
    rewrite B1, B2, <- app_assoc. reflexivity.
  - apply Forall_cons_1 in Hwf as [Hx Hwf].
    apply Forall_cons_1 in Hwf as [Hy Hwf].
    apply Forall_cons_1 in Hwf as [Hz Hwf].
    destruct (sextet_ranges x y z Hx Hy Hz) as (R1 & _ & R2 & _ & R3 & R4).
    destruct (group_bytes x y z Hx Hy Hz) as (B1 & B2 & B3).
    cbn [b2a_base64].
    rewrite (scan_sextet _ _ _ _ _ _ R1). cbv iota.
    rewrite (scan_sextet _ _ _ _ _ _ R2). cbv iota.
    rewrite (scan_sextet _ _ _ _ _ _ R3). cbv iota.
    rewrite (scan_sextet _ _ _ _ _ _ R4). cbv iota.
    rewrite B1, B2, B3, IH by assumption.
    rewrite <- !app_assoc. reflexivity.
Qed.

(** The encoder writes ASCII only. *)
Lemma b2a_base64_ascii (data : bytes) :
  wf_bytes data -> Utf8.ascii_only (b2a_base64 data).
Proof.
  assert (Hpad : 0 <= BASE64_PAD < 0x80) by (unfold BASE64_PAD; lia).
  induction data as [|x|x y|x y z rest IH] using list_ind3; intros Hwf.
  - constructor.
  - apply Forall_cons_1 in Hwf as [Hx _].
    destruct (sextet_ranges x 0 0 Hx) as (R1 & R2 & _); [lia | lia |].
    cbn [b2a_base64]. repeat constructor; try apply sextet_ascii; auto; lia.
  - apply Forall_cons_1 in Hwf as [Hx Hwf].
    apply Forall_cons_1 in Hwf as [Hy _].
    destruct (sextet_ranges x y 0 Hx Hy) as (R1 & _ & R2 & R3 & _); [lia|].
    cbn [b2a_base64]. repeat constructor; try apply sextet_ascii; auto; lia.
  - apply Forall_cons_1 in Hwf as [Hx Hwf].
    apply Forall_cons_1 in Hwf as [Hy Hwf].
    apply Forall_cons_1 in Hwf as [Hz Hwf].
    destruct (sextet_ranges x y z Hx Hy Hz) as (R1 & _ & R2 & _ & R3 & R4).
    cbn [b2a_base64]. unfold Utf8.ascii_only in *.
    do 4 (constructor; [now apply sextet_ascii|]).
    now apply IH.
Qed.

Lemma bytes_from_ascii (s : str) :
  Utf8.ascii_only s -> _bytes_from_decode_data s = Return s.
Proof.
  intros H. unfold _bytes_from_decode_data.
  replace (forallb (fun c => c <? 0x80) s) with true; [reflexivity|].
  symmetry. induction H as [|c s Hc Hs IH]; [reflexivity|].
  cbn [forallb]. rewrite IH, andb_true_r. apply Z.ltb_lt. lia.
Qed.

(** [b64decode] inverts [b64encode] on bytes. *)
Lemma b64decode_b64encode (data : bytes) :
  wf_bytes data -> b64decode (b64encode data) = Return data.
Proof.
  intros Hwf. unfold b64decode, b64encode.
  rewrite bytes_from_ascii by now apply b2a_base64_ascii.
  cbn [bind]. unfold a2b_base64. now rewrite scan_b2a_base64.
Qed.

End Base64Facts.

(** ** The identity codec: claims C1 and C2 *)

Module CodecFacts.
Import Codec.

(** C1.  For every display name that is valid text, [encode] yields a token
    and [decode] of that token yields the name again, code point for code
    point: decode(encode(name)) == name. *)
Theorem decode_encode (name : str) :
  Utf8.valid_text name ->
  exists token, encode name = Return token /\ decode token = Return name.
Proof.
  intros Hname.
  destruct (Utf8Roundtrip.encode_decode name Hname) as (utf8 & Henc & Hwf & Hdec).
  exists (Base64.b64encode utf8). unfold encode, decode.
  rewrite Henc. cbn [bind].
  rewrite Utf8Roundtrip.decode_ascii by now apply Base64Facts.b2a_base64_ascii.
  split; [reflexivity|].
  rewrite Base64Facts.b64decode_b64encode by assumption.
  exact Hdec.
Qed.

Lemma decode_encode_witness :
  Utf8.valid_text [74; 233; 0x4E2D; 0x1F600] /\
  exists token,
    encode [74; 233; 0x4E2D; 0x1F600] = Return token /\
    decode token = Return [74; 233; 0x4E2D; 0x1F600].
Proof.
  split; [|apply decode_encode]; repeat constructor; lia.
Defined.

(** A character outside the codec is neither the pad character nor in the
    lookup table. *)
Lemma foreign_char (c : Z) :
  Base64.codec_char c = false ->
  c <> Base64.BASE64_PAD /\ Base64.table_a2b_base64 c = 255.
Proof.
  unfold Base64.codec_char, Base64.table_a2b_base64, Base64.BASE64_PAD.
  intros H.
  repeat (apply orb_false_iff in H; destruct H as [H ?]).
  repeat match goal with
         | E : (_ =? _) = false |- _ => apply Z.eqb_neq in E
         end.
  split; [assumption|].
  rewrite H.
  repeat match goal with E : _ = false |- _ => rewrite E; clear E end.
  zbool. reflexivity.
Qed.

(** The scan does not see the characters outside the codec. *)
Lemma scan_skips_foreign (s : bytes) :
  forall quad_pos leftchar pads bin_data,
    Base64.a2b_base64_scan (List.filter Base64.codec_char s)
      quad_pos leftchar pads bin_data
    = Base64.a2b_base64_scan s quad_pos leftchar pads bin_data.
Proof.
  induction s as [|c s IH]; intros q lc p out; [reflexivity|].
  cbn [List.filter]. destruct (Base64.codec_char c) eqn:Hc.
  - cbn [Base64.a2b_base64_scan]. rewrite !IH. reflexivity.
  - rewrite IH. destruct (foreign_char c Hc) as [Hpad Htab].
    cbn [Base64.a2b_base64_scan].
    rewrite (proj2 (Z.eqb_neq _ _) Hpad). cbv zeta. rewrite Htab.
    reflexivity.
Qed.

(** The scan raises nothing but [binascii.Error]. *)
Lemma scan_raises (s : bytes) :
  forall quad_pos leftchar pads bin_data e,
    Base64.a2b_base64_scan s quad_pos leftchar pads bin_data = Raise e ->
    e = binascii_Error.
Proof.
  induction s as [|c s IH]; intros q lc p out e; cbn [Base64.a2b_base64_scan].
  - destruct (q =? 0); congruence.
  - cbv zeta.
    repeat match goal with
           | |- context [if ?b then _ else _] => destruct b
           | |- context [match ?z with 0 => _ | Z.pos _ => _ | Z.neg _ => _ end] =>
               destruct z as [|[?|?|]|?]
           | |- context [match ?z with (_~1)%positive => _ | (_~0)%positive => _ | 1%positive => _ end] =>
               destruct z
           end; try congruence; apply IH.
Qed.

(** The strict UTF-8 decoder raises nothing but [UnicodeDecodeError]. *)
Lemma utf8_decode_raises (b : bytes) (e : exn) :
  Utf8.decode b = Raise e -> e = UnicodeDecodeError.
Proof.
  remember (length b) as n eqn:Hn. revert b Hn e.
  induction n as [n IH] using lt_wf_ind. intros b Hn e.
  destruct b as [|ch s1]; cbn [Utf8.decode]; [congruence|].
  repeat match goal with
         | |- context [match ?l with [] => _ | _ :: _ => _ end] => destruct l
         | |- context [if ?c then _ else _] => destruct c
         end; try congruence.
  all: match goal with
       | |- bind (Utf8.decode ?s) _ = _ -> _ =>
           destruct (Utf8.decode s) eqn:E; cbn [bind];
           [congruence
           |intros [= <-]; eapply (IH (length s)); [|reflexivity|exact E];
            subst n; cbn [length]; lia]
       end.
Qed.

Lemma ascii_only_filter (f : Z -> bool) (s : str) :
  Utf8.ascii_only s -> Utf8.ascii_only (List.filter f s).
Proof.
  induction 1 as [|c s Hc Hs IH]; cbn [List.filter]; [constructor|].
  destruct (f c); [constructor|]; assumption.
Qed.

(** C2, as stated, fails twice.  The token [!aGk=] holds a character
    outside the codec and decodes to [hi]; the token [é] holds one and
    raises a plain [ValueError], which is neither [binascii.Error] nor
    [UnicodeDecodeError]. *)
Lemma decode_foreign_not_DecodeError :
  (foreign (lit "!aGk=") /\ decode (lit "!aGk=") = Return (lit "hi")) /\
  (foreign [233] /\ decode [233] = Raise ValueError /\ ~ DecodeError ValueError).
Proof.
  repeat split.
  - exists 33. split; [left|]; reflexivity.
  - exists 233. split; [left|]; reflexivity.
  - intros [H | H]; discriminate H.
Qed.

(** C2, amended.  For every token of ASCII characters: the characters
    outside the codec are skipped, not rejected, so [decode] acts on the
    token as on its codec characters alone; and when [decode] fails, it
    fails with [binascii.Error] (the scan ended inside a group of four) or
    with [UnicodeDecodeError] (the bytes are not UTF-8), never with another
    error. *)
Theorem decode_ascii_token (token : str) :
  Utf8.ascii_only token ->
  decode token = decode (List.filter Base64.codec_char token) /\
  (forall e, decode token = Raise e -> DecodeError e) /\
  (decode token = Raise binascii_Error <->
   Base64.a2b_base64 token = Raise binascii_Error) /\
  (decode token = Raise UnicodeDecodeError <->
   exists raw, Base64.a2b_base64 token = Return raw /\
               Utf8.decode raw = Raise UnicodeDecodeError).
Proof.
  intros Hascii.
  assert (Hdec : decode token = (raw <- Base64.a2b_base64 token ;; Utf8.decode raw)).
  { unfold decode, Base64.b64decode.
    now rewrite Base64Facts.bytes_from_ascii. }
  repeat split.
  - unfold decode, Base64.b64decode.
    rewrite !Base64Facts.bytes_from_ascii
      by (try apply ascii_only_filter; assumption).
    cbn [bind]. unfold Base64.a2b_base64. now rewrite scan_skips_foreign.
  - intros e. rewrite Hdec. unfold Base64.a2b_base64.
    destruct (Base64.a2b_base64_scan token 0 0 0 []) as [raw|e'] eqn:E;
      cbn [bind].
    + intros H. right. now apply utf8_decode_raises in H.
    + intros [= <-]. left. now apply scan_raises in E.
  - rewrite Hdec. destruct (Base64.a2b_base64 token) as [raw|e'];
      cbn [bind]; [|easy].
    intros H. apply utf8_decode_raises in H. discriminate H.
  - intros H. rewrite Hdec, H. reflexivity.
  - rewrite Hdec. destruct (Base64.a2b_base64 token) as [raw|e'] eqn:E;
      cbn [bind].
    + intros H. now exists raw.
    + intros [= ->]. apply scan_raises in E. discriminate E.
  - intros (raw & Hraw & Hutf). rewrite Hdec, Hraw. exact Hutf.
Qed.

Lemma decode_ascii_token_witness :
  Utf8.ascii_only (lit "aG k=") /\
  decode (lit "aG k=") = decode (List.filter Base64.codec_char (lit "aG k=")).
Proof.
  assert (H : Utf8.ascii_only (lit "aG k=")) by (repeat constructor; lia).
  split; [exact H | exact (proj1 (decode_ascii_token _ H))].
Defined.

End CodecFacts.

(** ** The key-value store: claims C8, C9 and C10 *)

Module StorageFacts.
Import Storage.
Local Open Scope io_scope.

Example str_of_int_user_id :
  str_of_int 994515273157709865 = lit "994515273157709865".
Proof. reflexivity. Qed.



(** The local branch of [load_data], on a file that holds a document. *)
Lemma load_data_from_file (s : state) (doc : json) :
  file s = Document doc ->
  (fb s = false \/ exists exc later, faults s = Some exc :: later) ->
  fst (load_data s) = Return doc.
Proof.
  intros Hfile Hremote.
  unfold load_data, _get_realtime_db, mbind.
  destruct (fb s) eqn:Hfb.
  - destruct Hremote as [Hoff | (exc & later & Hfaults)]; [discriminate Hoff|].
    unfold try_except at 1. unfold child_get, firebase_call, mbind.
    rewrite Hfaults. cbn [find isinstance fst snd].
    unfold logging_error, try_except, read_file. cbn [file add_log set_faults].
    rewrite Hfile. reflexivity.
  - unfold try_except, read_file. rewrite Hfile. reflexivity.
Qed.

(** C8.  When the remote backend is configured and its write fails,
    [save_data] still returns normally with the data written to the local
    file; and a later [load_data], on that file and with the remote read
    failing or no remote backend, returns the data saved. *)
Theorem save_data_remote_write_fails
    (data : json) (s : state) (exc : exn) (later : list (option exn)) :
  fb s = true ->
  faults s = Some exc :: later ->
  exists s1,
    save_data data s = (Return tt, s1) /\
    file s1 = Document data /\
    log s1 = log s ++ [Firebase_write_failed exc] /\
    forall s2,
      file s2 = file s1 ->
      (fb s2 = false \/ exists exc' later', faults s2 = Some exc' :: later') ->
      fst (load_data s2) = Return data.
Proof.
  intros Hfb Hfaults.
  eexists. split; [|split; [|split]].
  - unfold save_data, _get_realtime_db, mbind. rewrite Hfb.
    unfold try_except, child_set, firebase_call. rewrite Hfaults.
    cbn [find isinstance fst snd]. unfold logging_error, write_file.
    reflexivity.
  - reflexivity.
  - reflexivity.
  - intros s2 Hfile Hremote. apply load_data_from_file; assumption.
Qed.

Lemma save_data_remote_write_fails_witness :
  exists s1,
    save_data (JObj (<[lit "hostbot" := empty_dict]> ∅))
      (mkState true ∅ [Some (OtherException "FirebaseError")] No_file 0 [])
    = (Return tt, s1) /\
    file s1 = Document (JObj (<[lit "hostbot" := empty_dict]> ∅)).
Proof.
  destruct (save_data_remote_write_fails
              (JObj (<[lit "hostbot" := empty_dict]> ∅))
              (mkState true ∅ [Some (OtherException "FirebaseError")] No_file 0 [])
              (OtherException "FirebaseError") [] eq_refl eq_refl)
    as (s1 & Hsave & Hfile & _).
  exists s1. split; assumption.
Defined.

(** *** The shape of the stored tree is kept *)

Lemma logging_error_then {A} (r : log_record) (k : M state A) (s : state) :
  (logging_error r ;; k) s = k (add_log r s).
Proof. reflexivity. Qed.

Lemma well_shaped_empty : well_shaped empty_dict.
Proof. exists ∅. split; [reflexivity|]. left. apply lookup_empty. Qed.

Lemma setdefault_setitem_ok (store : json) (key : str) (value : json) :
  well_shaped store ->
  exists store', setdefault_setitem store key value = Return store' /\
                 well_shaped store' /\ truthy store' = true.
Proof.
  intros (m & -> & Hbase). unfold setdefault_setitem.
  assert (Hshape : forall b : gmap (list Z) json,
             well_shaped (JObj (<[DATA_USER_PATH := JObj b]> m)) /\
             truthy (JObj (<[DATA_USER_PATH := JObj b]> m)) = true).
  { intros b. split.
    - eexists. split; [reflexivity|]. right. exists b. apply lookup_insert_eq.
    - cbn [truthy]. rewrite bool_decide_eq_false_2; [reflexivity|].
      apply insert_non_empty. }
  destruct Hbase as [Hnone | (base & Hsome)].
  - rewrite Hnone. cbn [default empty_dict]. eexists. split; [reflexivity|].
    apply Hshape.
  - rewrite Hsome. cbn [default]. eexists. split; [reflexivity|].
    apply Hshape.
Qed.

(** [load_data] raises nothing on a store of that shape, and returns a
    tree of that shape; it changes the log and the faults only. *)
Lemma load_data_ok (s : state) :
  store_ok s ->
  exists doc s1,
    load_data s = (Return doc, s1) /\ well_shaped doc /\
    fb s1 = fb s /\ remote s1 = remote s /\ file s1 = file s.
Proof.
  intros [Hfile Hremote].
  assert (Hlocal : forall s0, file s0 = file s ->
            exists doc s1,
              try_except read_file
                [(FileNotFoundError_, fun _ => ret empty_dict);
                 (JSONDecodeError_, fun _ =>
                    logging_error Invalid_JSON_data_file ;; ret empty_dict)] s0
              = (Return doc, s1) /\ well_shaped doc /\
              fb s1 = fb s0 /\ remote s1 = remote s0 /\ file s1 = file s0).
  { intros s0 H0. unfold try_except, read_file. rewrite H0.
    destruct (file s) as [|text|doc] eqn:E; cbn;
      do 2 eexists; (split; [reflexivity|]); (split; [|cbn; auto]).
    - apply well_shaped_empty.
    - apply well_shaped_empty.
    - now apply Hfile. }
  assert (Hget : forall v, v = default JNull (remote s !! lit "data") ->
            well_shaped (if truthy v then v else empty_dict)).
  { intros v ->. destruct (remote s !! lit "data") as [v|] eqn:Hv; simpl.
    - destruct (truthy v) eqn:Ht; [apply (Hremote v); auto|apply well_shaped_empty].
    - apply well_shaped_empty. }
  unfold load_data, _get_realtime_db, mbind at 1.
  destruct (fb s) eqn:Hfb.
  2: { destruct (Hlocal s eq_refl) as (doc & s1 & E & Hd & H1 & H2 & H3).
       exists doc, s1. rewrite <- Hfb. auto. }
  unfold try_except at 1, child_get, firebase_call, mbind at 1.
  destruct (faults s) as [|[exc|] later] eqn:Hfaults.
  - cbn [ret]. do 2 eexists. split; [reflexivity|].
    cbn [fb remote file set_remote]. split; [now apply Hget|auto].
  - cbn [find isinstance fst snd]. rewrite logging_error_then.
    destruct (Hlocal (add_log (Firebase_read_failed exc) (set_faults later s))
                eq_refl) as (doc & s1 & -> & Hdoc & H1 & H2 & H3).
    do 2 eexists. split; [reflexivity|]. cbn in H1, H2, H3.
    rewrite <- Hfb. auto.
  - cbn [ret]. do 2 eexists. split; [reflexivity|].
    cbn [fb remote file set_remote set_faults]. split; [now apply Hget|auto].
Qed.

(** [save_data] raises nothing, and keeps the store in shape when the
    tree saved is. *)
Lemma save_data_ok (data : json) (s : state) :
  well_shaped data -> store_ok s ->
  exists s1, save_data data s = (Return tt, s1) /\ store_ok s1.
Proof.
  intros Hdata [Hfile Hremote].
  unfold save_data, _get_realtime_db, mbind at 1.
  destruct (fb s) eqn:Hfb.
  - unfold try_except, child_set, firebase_call.
    destruct (faults s) as [|[exc|] later] eqn:Hfaults;
      cbn [find isinstance fst snd];
      eexists; (split; [reflexivity|]); split;
      cbn [file remote set_remote set_faults add_log set_file]; auto.
    + intros v. rewrite lookup_insert_eq. now intros [= <-].
    + now intros doc [= <-].
    + intros v. rewrite lookup_insert_eq. now intros [= <-].
  - unfold write_file. eexists. split; [reflexivity|].
    split; cbn [file remote set_file]; auto.
    now intros doc [= <-].
Qed.

Lemma mbind_return {S A B} (m : M S A) (k : A -> M S B) (s s1 : S) (a : A) :
  m s = (Return a, s1) -> (x <- m ;; k x) s = k a s1.
Proof. intros H. unfold mbind. now rewrite H. Qed.

Lemma store_ok_same (s s1 : state) :
  remote s1 = remote s -> file s1 = file s -> store_ok s -> store_ok s1.
Proof. unfold store_ok. intros -> ->. auto. Qed.

(** The local branch of [save_zoom_name_to_file]: read, modify, write. *)
Lemma save_local_ok (key : str) (data : json) (encoded : str) (s : state) :
  store_ok s ->
  exists s',
    (store <- load_data ;;
     store' <- lift (setdefault_setitem store key data) ;;
     save_data store' ;;
     ret encoded) s = (Return encoded, s') /\ store_ok s'.
Proof.
  intros Hs.
  destruct (load_data_ok s Hs) as (doc & s1 & Hload & Hdoc & _ & Hr & Hf).
  destruct (setdefault_setitem_ok doc key data Hdoc) as (doc' & Hset & Hdoc' & _).
  destruct (save_data_ok doc' s1 Hdoc' (store_ok_same s s1 Hr Hf Hs))
    as (s2 & Hsave & Hs2).
  exists s2. split; [|exact Hs2].
  rewrite (mbind_return _ _ _ _ _ Hload).
  unfold lift at 1. rewrite Hset. unfold mbind at 1.
  rewrite (mbind_return _ _ _ _ _ Hsave). reflexivity.
Qed.

(** The token [encode] computes for valid text: the Base64 characters of
    the UTF-8 bytes. *)
Lemma encode_valid_text (name : str) :
  Utf8.valid_text name ->
  exists utf8, Utf8.encode name = Return utf8 /\
               Codec.encode name = Return (Base64.b64encode utf8).
Proof.
  intros Hname.
  destruct (Utf8Roundtrip.encode_decode name Hname) as (utf8 & Henc & Hwf & _).
  exists utf8. split; [exact Henc|]. unfold Codec.encode. rewrite Henc.
  cbn [bind]. apply Utf8Roundtrip.decode_ascii.
  now apply Base64Facts.b2a_base64_ascii.
Qed.

(** C10.  For every user id and every display name that is valid text,
    [save_zoom_name_to_file] returns the Base64 encoding of the name's
    UTF-8 bytes, whatever the backend does: with no remote backend, with a
    remote write that succeeds, and with a remote write that fails and the
    local fallback taken (whatever the later remote calls do).  The store
    is one of the shape this module writes. *)
Theorem save_zoom_name_to_file_token (user_id : Z) (zoom_name : str) (s : state) :
  Utf8.valid_text zoom_name ->
  store_ok s ->
  exists utf8 s',
    Utf8.encode zoom_name = Return utf8 /\
    save_zoom_name_to_file user_id zoom_name s
    = (Return (Base64.b64encode utf8), s').
Proof.
  intros Hname Hs.
  destruct (encode_valid_text zoom_name Hname) as (utf8 & Hutf & Henc).
  exists utf8.
  unfold save_zoom_name_to_file.
  unfold lift at 1, mbind at 1. rewrite Henc.
  unfold time_time at 1, mbind at 1.
  unfold _user_ref, _get_realtime_db, mbind at 1, mbind at 1.
  destruct (fb s) eqn:Hfb; cbn [negb ret].
  - unfold try_except, child_set at 1, firebase_call, mbind at 1.
    destruct (faults s) as [|[exc|] later] eqn:Hfaults.
    + eexists. split; [exact Hutf|reflexivity].
    + cbn [find isinstance fst snd]. rewrite logging_error_then.
      edestruct save_local_ok as (s' & -> & _); [|eexists; split; [exact Hutf|reflexivity]].
      eapply store_ok_same; [| |exact Hs]; reflexivity.
    + eexists. split; [exact Hutf|reflexivity].
  - edestruct save_local_ok as (s' & -> & _); [exact Hs|].
    eexists. split; [exact Hutf|reflexivity].
Qed.

Lemma save_zoom_name_to_file_token_witness :
  Utf8.valid_text [90; 111; 235] /\
  store_ok (mkState true ∅ [Some (OtherException "FirebaseError")] No_file 1700000000 []) /\
  exists utf8 s',
    Utf8.encode [90; 111; 235] = Return utf8 /\
    save_zoom_name_to_file 7 [90; 111; 235]
      (mkState true ∅ [Some (OtherException "FirebaseError")] No_file 1700000000 [])
    = (Return (Base64.b64encode utf8), s').
Proof.
  assert (Hv : Utf8.valid_text [90; 111; 235]) by (repeat constructor; lia).
  assert (Hs : store_ok (mkState true ∅ [Some (OtherException "FirebaseError")]
                           No_file 1700000000 [])).
  { split; cbn [file remote].
    - intros doc H. discriminate H.
    - intros v H. rewrite lookup_empty in H. discriminate H. }
  split; [exact Hv|]. split; [exact Hs|].
  exact (save_zoom_name_to_file_token 7 [90; 111; 235] _ Hv Hs).
Defined.

Example save_zoom_name_to_file_fallback :
  fst (save_zoom_name_to_file 7 [90; 111; 235]
         (mkState true ∅ [Some (OtherException "FirebaseError")] No_file 1700000000 []))
  = Return (lit "Wm/Dqw==").
Proof. vm_compute. reflexivity. Qed.

End StorageFacts.

(** ** The trigger client: claim C5 *)

Module TriggerCmdFacts.
Import TriggerCmd.
Local Open Scope io_scope.

(** [_call_trigger] raises nothing. *)
Lemma _call_trigger_returns (trigger : str) (params : option str) (s : state) :
  exists b s', _call_trigger trigger params s = (Return b, s').
Proof.
  unfold _call_trigger, try_except at 1, get_token, mbind at 1.
  case_bool_decide; [do 2 eexists; reflexivity|].
  unfold ret at 1, mbind at 1, urlopen at 1, mbind at 1.
  destruct (replies s) as [|[exc|status body] rest];
    [do 2 eexists; reflexivity
    |destruct exc; do 2 eexists; reflexivity|].
  destruct ((200 <=? status) && (status <? 300)).
  - unfold read at 1, mbind at 1. cbn [answer].
    destruct body as [bd|[]]; do 2 eexists; reflexivity.
  - destruct body; do 2 eexists; reflexivity.
Qed.

(** C5.  For every action and payload, [_call_trigger] raises nothing: it
    returns a boolean.  The boolean is [True] exactly when the credential
    is set and the request got an answer with a status in [200, 300) whose
    body was read to its end; so it is [False] on a missing credential, on
    a transport error, on any other status and on a body that fails to
    read. *)
Theorem _call_trigger_bool (trigger : str) (params : option str) (s : state) :
  exists b s',
    _call_trigger trigger params s = (Return b, s') /\
    (b = true <->
     TRIGGERCMD_TOKEN s <> [] /\
     exists r rest, replies s = r :: rest /\ answered_2xx r).
Proof.
  unfold _call_trigger, try_except at 1, get_token, mbind at 1.
  case_bool_decide as Htoken.
  - (* no credential *)
    do 2 eexists. split; [reflexivity|]. split; [discriminate|].
    intros [H _]. contradiction.
  - unfold ret at 1, mbind at 1, urlopen at 1, mbind at 1.
    destruct (replies s) as [|[exc|status body] rest] eqn:Hreplies.
    + (* the network is down *)
      do 2 eexists. split; [reflexivity|]. split; [discriminate|].
      intros (_ & r & rest & H & _). discriminate H.
    + (* a transport error *)
      destruct exc; do 2 eexists; (split; [reflexivity|]);
        (split; [discriminate|]);
        intros (_ & r & rest' & [= <- <-] & st & bd & H & _); discriminate H.
    + destruct ((200 <=? status) && (status <? 300)) eqn:Hstatus.
      * (* an answer with a 2xx status *)
        unfold read at 1, mbind at 1. cbn [answer].
        destruct body as [bd|exc].
        -- do 2 eexists. split; [reflexivity|]. split; [|reflexivity].
           intros _. split; [assumption|].
           exists (Answer status (Return bd)), rest. split; [reflexivity|].
           exists status, bd. split; [reflexivity|]. lia.
        -- destruct exc; do 2 eexists; (split; [reflexivity|]);
             (split; [discriminate|]);
             intros (_ & r & rest' & [= <- <-] & st & bd & H & _);
             discriminate H.
      * (* an answer with another status *)
        destruct body as [bd|exc]; do 2 eexists; (split; [reflexivity|]);
          (split; [discriminate|]);
          intros (_ & r & rest' & [= <- <-] & st & bd' & [= -> _] & Hst); lia.
Qed.

End TriggerCmdFacts.

(** ** Character classes on known inputs (CPython 3.11) *)

Module PyVectors.

Example isdigit_vectors :
  map Py.isdigit [lit "12345678901"; lit "1234567890a"; lit ""; lit " 1";
                  [178; 179]; [1633; 1634; 1635]; [65297; 65298]; lit "-1"; lit "1.0"]
  = [true; false; false; false; true; true; true; false; false].
Proof. reflexivity. Qed.

Example strip_vectors :
  map Py.strip [lit "  12 34 	"; lit ""; lit "   "; [160; 49; 8195; 10]; lit "a"]
  = [lit "12 34"; lit ""; lit ""; lit "1"; lit "a"].
Proof. reflexivity. Qed.

Example int_vectors :
  map Py.int_of_digits [lit "10"; lit "007"; [1632; 1633; 1634]; [49; 65298];
                        [178]; lit "0"]
  = [Return 10; Return 7; Return 12; Return 12; Raise ValueError; Return 0].
Proof. reflexivity. Qed.

End PyVectors.

(** ** The worker: one turn and many *)

Module WorkerFacts.
Import HostBot.
Local Open Scope io_scope.

(** Worlds that differ in fields [calm] and [quiet] do not look at. *)
Ltac calm_same :=
  split; [exists []; split; [cbn; now rewrite app_nil_r|constructor]|cbn; auto].
Ltac quiet_same := split; [calm_same|cbn; auto].

Lemma calm_refl (w : world) : calm w w.
Proof. calm_same. Qed.

Lemma calm_trans (w1 w2 w3 : world) : calm w1 w2 -> calm w2 w3 -> calm w1 w3.
Proof.
  intros ((e1 & T1 & F1) & N1 & D1 & K1) ((e2 & T2 & F2) & N2 & D2 & K2).
  split; [|repeat split; congruence].
  exists (e1 ++ e2). split; [rewrite T2, T1; now rewrite app_assoc|].
  apply Forall_app; auto.
Qed.

Lemma quiet_refl (w : world) : quiet w w.
Proof. quiet_same. Qed.

Lemma quiet_trans (w1 w2 w3 : world) : quiet w1 w2 -> quiet w2 w3 -> quiet w1 w3.
Proof.
  intros (C1 & Q1) (C2 & Q2).
  split; [now apply (calm_trans _ w2)|congruence].
Qed.

Lemma quiet_event (e : event) (w : world) :
  processing_event e -> quiet w (add_event e w).
Proof.
  intros He. split; [|auto]. split; [|auto]. exists [e]. split; [reflexivity|].
  constructor; [exact He|constructor].
Qed.

Lemma quiet_discord_post (e : event) (w : world) :
  processing_event e ->
  exists r w', discord_post e w = (r, w') /\ quiet w w'.
Proof.
  intros He. unfold discord_post.
  destruct (discord_faults w) as [|[exc|] rest]; do 2 eexists;
    (split; [reflexivity|]).
  - now apply quiet_event.
  - quiet_same.
  - apply (quiet_trans _ (set_discord_faults rest w)); [quiet_same|].
    now apply (quiet_event e (set_discord_faults rest w)).
Qed.

Lemma quiet_send_log_embed (e : log_embed) (w : world) :
  exists r w', send_log_embed e w = (r, w') /\ quiet w w'.
Proof.
  unfold send_log_embed. destruct (log_channel w).
  - apply quiet_discord_post. exact I.
  - do 2 eexists. split; [reflexivity|apply quiet_refl].
Qed.

Lemma quiet_send_message (m : message) (w : world) :
  exists r w', send_message m w = (r, w') /\ quiet w w'.
Proof. apply quiet_discord_post. exact I. Qed.

(** The [try] statement of the worker raises nothing, whatever the trigger
    client, the decoder and Discord do. *)
Lemma process_returns (request : Request) (w : world) :
  exists w', process request w = (Return tt, w') /\ quiet w w'.
Proof.
  unfold process, try_except, mbind at 1, in_triggercmd,
    TriggerCmd.send_trigger_cmd.
  destruct (TriggerCmdFacts._call_trigger_returns (lit "cohost")
              (Some (encoded_name request)) (triggercmd w))
    as (success & t' & ->).
  set (w1 := set_triggercmd t' w).
  assert (Q1 : quiet w w1) by quiet_same.
  unfold mbind, lift.
  destruct (Codec.decode (encoded_name request)) as [name|exc].
  - destruct success.
    + destruct (quiet_send_log_embed (Cohost_assigned name) w1)
        as ([[]|exc] & w2 & -> & Q2).
      * eexists. split; [reflexivity|]. now apply (quiet_trans _ w1).
      * cbn [find isinstance fst snd]. unfold logging_error.
        eexists. split; [reflexivity|].
        apply (quiet_trans _ w1); [assumption|].
        apply (quiet_trans _ w2); [assumption|]. now apply quiet_event.
    + destruct (quiet_send_log_embed (Failed_to_send_cohost_trigger name) w1)
        as ([[]|exc] & w2 & -> & Q2).
      * eexists. split; [reflexivity|]. now apply (quiet_trans _ w1).
      * cbn [find isinstance fst snd]. unfold logging_error.
        eexists. split; [reflexivity|].
        apply (quiet_trans _ w1); [assumption|].
        apply (quiet_trans _ w2); [assumption|]. now apply quiet_event.
  - cbn [find isinstance fst snd]. unfold logging_error.
    eexists. split; [reflexivity|].
    apply (quiet_trans _ w1); [assumption|]. now apply quiet_event.
Qed.

(** A turn of the worker on a queue that is not empty: the head is taken,
    the [try] statement runs, the worker sleeps [queue_delay], and the task
    is back at the head of its loop. *)
Lemma queue_worker_turn_spec (w : world) (request : Request) (rest : list Request) :
  request_queue w = request :: rest ->
  exists evs w',
    queue_worker_turn w = (Running, w') /\
    trace w' = trace w ++ Dequeued request (now w) :: evs
                       ++ [Slept (queue_delay w) (now w)] /\
    Forall processing_event evs /\
    request_queue w' = rest /\
    queue_delay w' = queue_delay w /\
    now w' = now w + Z.max 0 (queue_delay w) /\
    worker w' = worker w.
Proof.
  intros Hq. unfold queue_worker_turn. rewrite Hq.
  set (w1 := add_event (Dequeued request (now w)) (set_request_queue rest w)).
  destruct (process_returns request w1)
    as (w2 & Hp & ((evs & T & F) & N & D & K) & Q).
  unfold mbind at 1. rewrite Hp.
  unfold mbind, get_queue_delay, asyncio_sleep.
  exists evs. eexists. split; [reflexivity|].
  cbn [trace request_queue queue_delay now worker set_now add_event].
  rewrite T, Q, D, N, K. cbn. rewrite <- !app_assoc. cbn. auto 10.
Qed.





End WorkerFacts.

(** ** The handlers leave the worker's business alone *)

Module HandlerFacts.
Import HostBot WorkerFacts.
Local Open Scope io_scope.

Lemma calmly_ret {A} (a : A) : calmly (ret a).
Proof. intros w. do 2 eexists. split; [reflexivity|apply calm_refl]. Qed.

Lemma calmly_raise {A} (e : exn) : calmly (@raise world A e).
Proof. intros w. do 2 eexists. split; [reflexivity|apply calm_refl]. Qed.

Lemma calmly_lift {A} (r : result A) : calmly (lift r).
Proof. intros w. do 2 eexists. split; [reflexivity|apply calm_refl]. Qed.

Lemma calmly_bind {A B} (m : M world A) (k : A -> M world B) :
  calmly m -> (forall a, calmly (k a)) -> calmly (x <- m ;; k x).
Proof.
  intros Hm Hk w. unfold mbind.
  destruct (Hm w) as ([a|e] & w1 & -> & C1).
  - destruct (Hk a w1) as (r & w2 & -> & C2).
    do 2 eexists. split; [reflexivity|]. now apply (calm_trans _ w1).
  - do 2 eexists. split; [reflexivity|assumption].
Qed.

Lemma calmly_try_except {A} (body : M world A)
    (handlers : list (exn_class * (exn -> M world A))) :
  calmly body ->
  Forall (fun h => forall e, calmly (snd h e)) handlers ->
  calmly (try_except body handlers).
Proof.
  intros Hb Hh w. unfold try_except.
  destruct (Hb w) as ([a|e] & w1 & -> & C1).
  - do 2 eexists. split; [reflexivity|assumption].
  - destruct (find (fun h => isinstance e (fst h)) handlers) as [h|] eqn:Hf.
    + apply find_some in Hf as [Hin _].
      rewrite Forall_forall in Hh.
      destruct (Hh h (proj2 (list_elem_of_In _ _) Hin) e w1) as (r & w2 & -> & C2).
      do 2 eexists. split; [reflexivity|]. now apply (calm_trans _ w1).
    + do 2 eexists. split; [reflexivity|assumption].
Qed.

Lemma calmly_send_message (m : message) : calmly (send_message m).
Proof.
  intros w. destruct (quiet_send_message m w) as (r & w' & E & C & _).
  now exists r, w'.
Qed.

Lemma calmly_send_log_embed (e : log_embed) : calmly (send_log_embed e).
Proof.
  intros w. destruct (quiet_send_log_embed e w) as (r & w' & E & C & _).
  now exists r, w'.
Qed.

Lemma calmly_put (r : Request) : calmly (put r).
Proof. intros w. do 2 eexists. split; [reflexivity|calm_same]. Qed.

Lemma calmly_qsize : calmly qsize.
Proof. intros w. do 2 eexists. split; [reflexivity|calm_same]. Qed.

Lemma calmly_in_storage {A} (m : M Storage.state A) : calmly (in_storage m).
Proof.
  intros w. unfold in_storage. destruct (m (storage w)) as [r s].
  do 2 eexists. split; [reflexivity|calm_same].
Qed.

Lemma calmly_set_room_number (v : str) :
  calmly (fun w => (Return tt, set_room_number v w)).
Proof. intros w. do 2 eexists. split; [reflexivity|calm_same]. Qed.

Create HintDb calm.
#[local] Hint Resolve calmly_ret calmly_raise calmly_lift calmly_send_message
  calmly_send_log_embed calmly_put calmly_qsize calmly_in_storage
  calmly_set_room_number : calm.

Ltac calmly_step :=
  match goal with
  | |- calmly (mbind _ _) => apply calmly_bind; [|intros ?]
  | |- calmly (try_except _ _) =>
      apply calmly_try_except; [|repeat (constructor; [intros ?; cbn [snd]|])]
  | |- calmly (match ?x with _ => _ end) => destruct x
  | |- calmly (if ?b then _ else _) => destruct b
  | |- Forall _ [] => constructor
  | |- calmly _ => solve [auto with calm]
  end.

Lemma calmly_self_assign_cohost (stored : result (option str)) :
  calmly (self_assign_cohost stored).
Proof. unfold self_assign_cohost. repeat calmly_step. Qed.

Lemma calmly_AssignCohostModal_on_submit (zoom_name : str) :
  calmly (AssignCohostModal_on_submit zoom_name).
Proof. unfold AssignCohostModal_on_submit. repeat calmly_step. Qed.

Lemma calmly_on_message (own in_channel : bool) (content : str) :
  calmly (on_message own in_channel content).
Proof. unfold on_message. repeat calmly_step. Qed.

Lemma calmly_UpdateRoomNumberModal_on_submit (number : str) :
  calmly (UpdateRoomNumberModal_on_submit number).
Proof. unfold UpdateRoomNumberModal_on_submit. cbv zeta. repeat calmly_step. Qed.

(** The modal that sets the delay: it leaves the delay as it is or sets
    it to the value of the digits entered. *)
Lemma SetQueueDelayModal_on_submit_spec (seconds : str) (w : world) :
  exists r w' evs,
    SetQueueDelayModal_on_submit seconds w = (r, w') /\
    trace w' = trace w ++ evs /\ Forall processing_event evs /\
    now w' = now w /\ worker w' = worker w /\
    (queue_delay w' = queue_delay w \/
     int_of_digits seconds = Return (queue_delay w')).
Proof.
  unfold SetQueueDelayModal_on_submit.
  destruct (isdigit seconds).
  - unfold mbind at 1, lift.
    destruct (int_of_digits seconds) as [delay|exc].
    + unfold mbind.
      destruct (quiet_send_message Queue_delay_updated (set_queue_delay delay w))
        as (r & w' & -> & ((evs & T & F) & N & D & K) & _).
      exists r, w', evs. cbn in T, N, D, K. rewrite D. auto 10.
    + exists (Raise exc), w, []. rewrite app_nil_r. repeat split; auto.
  - destruct (quiet_send_message Invalid_number w)
      as (r & w' & -> & ((evs & T & F) & N & D & K) & _).
    exists r, w', evs. auto 10.
Qed.

(** *** The clock only moves on, and a request is taken at the time of
        the clock *)





End HandlerFacts.

(** ** The co-host request queue: claims C3, C6 and C7 *)

Module QueueFacts.
Import HostBot WorkerFacts HandlerFacts.
Local Open Scope io_scope.


(** A poisoned item and a failing trigger do not stop the queue: the token
    [a] cannot be decoded and the endpoint answers 500 to it; the worker
    logs the error, sleeps, and then serves [aGk=]. *)
Example poisoned_item :
  trace (snd (queue_worker 2
                (example_world [mkRequest (lit "a"); mkRequest (lit "aGk=")])))
  = [Dequeued (mkRequest (lit "a")) 0;
     Logged_worker_error binascii_Error;
     Slept 10 0;
     Dequeued (mkRequest (lit "aGk=")) 10;
     Sent_log_embed (Cohost_assigned (lit "hi"));
     Slept 10 10].
Proof. vm_compute. reflexivity. Qed.

(** The delay is never negative: it starts at [10] and the modal sets it
    to the value of a text of digits. *)
Lemma int_digits_nonneg (s : str) :
  forall acc n, 0 <= acc -> int_digits acc s = Return n -> 0 <= n.
Proof.
  induction s as [|c s IH]; intros acc n Hacc; cbn [int_digits].
  - now intros [= <-].
  - unfold decimal_value.
    destruct (find _ decimal_ranges) as [r|]; [|discriminate].
    apply IH. lia.
Qed.

Lemma queue_delay_default room s t channel faults :
  queue_delay (start_bot room s t channel faults) = 10.
Proof. reflexivity. Qed.

Lemma queue_delay_nonneg (actions : list action) :
  forall w, 0 <= queue_delay w -> 0 <= queue_delay (run actions w).
Proof.
  assert (Hcalm : forall A (m : M world A) w,
             calmly m -> queue_delay (snd (m w)) = queue_delay w).
  { intros A m w Hm. now destruct (Hm w) as (r & w' & -> & _ & _ & D & _). }
  induction actions as [|a actions IH]; intros w Hw; [exact Hw|].
  cbn [run fold_left]. apply IH.
  destruct a as [stored|zoom_name|own in_channel content|number|seconds| |seconds];
    cbn [step].
  - rewrite Hcalm; [exact Hw|apply calmly_self_assign_cohost].
  - rewrite Hcalm; [exact Hw|apply calmly_AssignCohostModal_on_submit].
  - rewrite Hcalm; [exact Hw|apply calmly_on_message].
  - rewrite Hcalm; [exact Hw|apply calmly_UpdateRoomNumberModal_on_submit].
  - destruct (SetQueueDelayModal_on_submit_spec seconds w)
      as (r & w' & evs & -> & _ & _ & _ & _ & [D|D]); cbn [snd].
    + now rewrite D.
    + unfold int_of_digits in D. destruct (4300 <? len seconds); [discriminate|].
      now apply (int_digits_nonneg seconds 0).
  - destruct (worker w); [| |exact Hw].
    all: destruct (request_queue w) as [|request rest] eqn:Hq;
      [unfold queue_worker_turn; rewrite Hq; exact Hw|];
      destruct (queue_worker_turn_spec w request rest Hq)
        as (evs & w' & -> & _ & _ & _ & D & _);
      cbn [queue_delay set_worker]; now rewrite D.
  - exact Hw.
Qed.



(** *** Enqueuing *)






Example three_requests :
  positions (trace (run [Self_assign_cohost (Return (Some (lit "aGk=")));
                         Assign_cohost (lit "bob");
                         Self_assign_cohost (Return (Some (lit "Y2Fy")));
                         Worker_turn; Worker_turn; Worker_turn]
                      (example_world [])))
  = [1; 2; 3] /\
  dequeued (trace (run [Self_assign_cohost (Return (Some (lit "aGk=")));
                        Assign_cohost (lit "bob");
                        Self_assign_cohost (Return (Some (lit "Y2Fy")));
                        Worker_turn; Worker_turn; Worker_turn]
                     (example_world [])))
  = [mkRequest (lit "aGk="); mkRequest (lit "Ym9i"); mkRequest (lit "Y2Fy")].
Proof. vm_compute. split; reflexivity. Qed.

End QueueFacts.

(** ** The room number: claim C4 *)

Module RoomNumberFacts.
Import HostBot WorkerFacts.
Local Open Scope io_scope.

(** Below [128], the digits of [str.isdigit] are the ASCII digits. *)
Lemma isdigit_char_ascii (c : Z) :
  c < 128 -> (isdigit_char c = true <-> ascii_digit c).
Proof.
  intros Hc. unfold isdigit_char, ascii_digit. split.
  - intros H. apply orb_true_iff in H as [H|H];
      unfold in_ranges in H; apply existsb_exists in H as (r & Hin & Hr);
      apply andb_true_iff in Hr as [H1 H2];
      apply Z.leb_le in H1; apply Z.leb_le in H2;
      [unfold decimal_ranges in Hin|unfold other_digit_ranges in Hin];
      cbn [In] in Hin;
      repeat (destruct Hin as [<-|Hin]; [cbn [fst snd] in *; lia|]);
      destruct Hin.
  - intros H. apply orb_true_iff. left.
    unfold in_ranges. apply existsb_exists. exists (48, 57).
    split; [left; reflexivity|]. cbn [fst snd].
    apply andb_true_iff. split; apply Z.leb_le; lia.
Qed.

(** On ASCII text, the test of the modal is the test of the claim. *)
Lemma ascii_value_accepted (value : str) :
  Forall (fun c => c < 128) value ->
  (isdigit value && (len value =? 11) = true <-> eleven_ascii_digits value).
Proof.
  intros Hascii. unfold eleven_ascii_digits, len.
  assert (Hall : forallb isdigit_char value = true <-> Forall ascii_digit value).
  { induction Hascii as [|c value Hc _ IH]; cbn [forallb].
    - split; [constructor|reflexivity].
    - rewrite andb_true_iff, IH, (isdigit_char_ascii c Hc).
      split; [intros [? ?]; now constructor|intros H; now inversion H]. }
  rewrite andb_true_iff, Z.eqb_eq. split.
  - intros [Hd Hl]. split; [lia|].
    apply Hall. destruct value; [discriminate Hd|exact Hd].
  - intros [Hl Hd]. split; [|lia].
    destruct value; [discriminate Hl|]. now apply Hall.
Qed.

(** A text the modal rejects changes neither the room number in memory
    nor anything stored: only the answer is sent. *)
Lemma rejected_without_mutation (number : str) (w : world) :
  isdigit (strip number) && (len (strip number) =? 11) = false ->
  exists r w',
    UpdateRoomNumberModal_on_submit number w = (r, w') /\
    room_number w' = room_number w /\
    storage w' = storage w /\
    (r = Return tt -> discord_faults w = [] ->
     trace w' = trace w ++ [Sent_message Invalid_room_number]).
Proof.
  intros H. unfold UpdateRoomNumberModal_on_submit. cbv zeta. rewrite H.
  unfold send_message, discord_post.
  destruct (discord_faults w) as [|[exc|] rest]; do 2 eexists;
    (split; [reflexivity|]); repeat split; try discriminate.
Qed.

(** The room numbers the specification names: the first is taken, kept in
    memory and stored; the others are refused and nothing changes. *)
Example named_room_numbers :
  let w := example_world [] in
  let after (number : str) := snd (UpdateRoomNumberModal_on_submit number w) in
  room_number (after (lit "12345678901")) = lit "12345678901" /\
  Storage.file (storage (after (lit "12345678901")))
  = Storage.Document
      (Storage.JObj
         (<[Storage.DATA_USER_PATH :=
              Storage.JObj (<[lit "room_number" :=
                                Storage.JStr (lit "12345678901")]> ∅)]> ∅)) /\
  (room_number (after (lit "1234567890")), storage (after (lit "1234567890")))
  = (room_number w, storage w) /\
  (room_number (after (lit "123456789012")), storage (after (lit "123456789012")))
  = (room_number w, storage w) /\
  (room_number (after (lit "1234567890a")), storage (after (lit "1234567890a")))
  = (room_number w, storage w) /\
  room_number (after (lit "  12345678901 ")) = lit "12345678901".
Proof. vm_compute. repeat split; reflexivity. Qed.

(** C4, at an input on which the code departs from it.  Eleven
    Arabic-Indic digits are not eleven ASCII digits, yet the modal takes
    them: [str.isdigit] holds of every Unicode digit.  The text becomes the
    room number in memory and in the store. *)
Theorem non_ascii_digits_accepted :
  let number := [1633; 1634; 1635; 1636; 1637; 1638; 1639; 1640; 1641; 1632; 1633] in
  let w := example_world [] in
  let w' := snd (UpdateRoomNumberModal_on_submit number w) in
  ~ eleven_ascii_digits (strip number) /\
  room_number w' = number /\
  Storage.file (storage w')
  = Storage.Document
      (Storage.JObj
         (<[Storage.DATA_USER_PATH :=
              Storage.JObj (<[lit "room_number" := Storage.JStr number]> ∅)]> ∅)) /\
  trace w' = [Sent_message (Room_number_updated number)].
Proof.
  cbv zeta. split.
  - intros [_ H].
    assert (E : strip [1633; 1634; 1635; 1636; 1637; 1638; 1639; 1640; 1641;
                        1632; 1633]
                = [1633; 1634; 1635; 1636; 1637; 1638; 1639; 1640; 1641;
                   1632; 1633]) by (vm_compute; reflexivity).
    rewrite E in H. inversion H as [|c l Hc _]; subst.
    unfold ascii_digit in Hc. lia.
  - vm_compute. repeat split; reflexivity.
Qed.

End RoomNumberFacts.

(** ** Messages on the trigger channel *)

Module MessageFacts.
Import HostBot.

(** A message of [!aGk=] is queued as it is, trimmed: the decoder skips
    the [!].  A message with a character that is not ASCII makes
    [b64decode] raise a plain [ValueError], which neither [except] clause
    of [on_message] catches: the exception leaves the handler and nothing
    is queued. *)
Example on_message_vectors :
  request_queue (snd (on_message false true (lit " !aGk= ") (example_world [])))
  = [mkRequest (lit "!aGk=")] /\
  on_message false true [233] (example_world [])
  = (Raise ValueError, example_world []) /\
  trace (snd (on_message false true (lit "aGk") (example_world [])))
  = [Sent_log_embed Invalid_base64_encoded_string] /\
  trace (snd (on_message false true (lit "/w==") (example_world [])))
  = [Sent_log_embed Decoded_string_is_not_valid_UTF8].
Proof. vm_compute. repeat split; reflexivity. Qed.

End MessageFacts.
